(** * Ingestion pipeline of [Q1/data_processor.py]: a shallow embedding

    The development follows the source file top down: the Python values
    the pipeline handles (decoded JSON, exceptions), [ApiConfig] and its
    constructor, the fetch stage ([fetch_data], [_do_fetch] and the
    [backoff.on_exception] wrapper), [transform_data], [store_data],
    [process_data_in_thread_pool] and [process_apis].  The consumer side
    of the stored strings is [get_table_data] of [Q1/main.py]; the two
    callers of the pipeline are [trigger_processing] of [Q1/main.py] and
    [load_api_configs], [run_data_processing_job] of [Q1/scheduler.py].

    Modelling conventions.
    - A decoded JSON payload is a value of [json].  Python dicts keep
      insertion order, and the code depends on it (first key, column
      order), so a dict is an association list whose keys are pairwise
      distinct ([wf_json]).  Numbers are Python ints ([Z]); floating
      point values are outside the model.
    - A [str] is a [string]: a sequence of characters with codes 0..255.
    - Code that may raise returns a [result]; the HTTP peer and the
      database are oracles carried by an explicit environment.
    - The two concurrent stages ([asyncio.gather] and the thread pool)
      are run in submission order, one fetch and one unit at a time; the
      semaphore that bounds the fetches in flight is then always free.
    - Log lines and metrics are not part of the state: no function of
      the pipeline reads them back. *)

From Stdlib Require Import ZArith Ascii String.
From Stdlib Require DecimalZ.
From stdpp Require Import base gmap strings list.

Set Warnings "-register-all,-clear-no-such-hyp".
Local Open Scope Z_scope.

(** ** Python values *)

Inductive json : Type :=
| JNull
| JBool (b : bool)
| JInt (n : Z)
| JStr (s : string)
| JList (l : list json)
| JDict (d : list (string * json)).

(** A Python dict of decoded JSON: insertion-ordered, keys distinct. *)
Abbreviation pydict := (list (string * json)).

Inductive exn : Type :=
| ClientError            (* aiohttp.ClientError and its subclasses *)
| TimeoutError           (* asyncio.TimeoutError *)
| ValueError (msg : string)
| TypeError
| KeyError
| AttributeError
| IndexError
| DatabaseError.         (* whatever SQLAlchemy / the driver raises *)

Inductive result (A : Type) : Type :=
| Ok (a : A)
| Raise (e : exn).
Arguments Ok {A} a.
Arguments Raise {A} e.

(** [result] is the error monad of the development; [x ← r; k] runs [k]
    on the value of [r] and propagates the exception otherwise. *)
#[global] Instance result_ret : MRet result := fun A a => Ok a.
#[global] Instance result_bind : MBind result := fun A B k r =>
  match r with
  | Ok a => k a
  | Raise e => Raise e
  end.

(** ** String primitives of Python used by the code *)

Module Py.

Definition str_eqb (a b : string) : bool := String.eqb a b.

(** [s.split(sep)] for a non-empty separator: left to right, matches
    do not overlap, the result always has at least one piece. *)
Fixpoint split_go (sep s : string) (skip : nat) (cur : string) : list string :=
  match s with
  | EmptyString => [cur]
  | String c s' =>
      match skip with
      | S k => split_go sep s' k cur
      | O =>
          if String.prefix sep s
          then cur :: split_go sep s' (Nat.pred (String.length sep)) EmptyString
          else split_go sep s' O (cur +:+ String c EmptyString)
      end
  end.

Definition split (sep s : string) : list string := split_go sep s O EmptyString.

Fixpoint join (sep : string) (l : list string) : string :=
  match l with
  | [] => EmptyString
  | [x] => x
  | x :: rest => x +:+ sep +:+ join sep rest
  end.

(** [s.replace(old, new)] for a non-empty [old]. *)
Definition replace (old new s : string) : string := join new (split old s).

Definition lower_char (c : ascii) : ascii :=
  let n := nat_of_ascii c in
  if (Nat.leb 65 n && Nat.leb n 90)%bool then ascii_of_nat (n + 32) else c.

(** [s.lower()] on the letters A..Z. *)
Fixpoint lower (s : string) : string :=
  match s with
  | EmptyString => EmptyString
  | String c s' => String (lower_char c) (lower s')
  end.

(** [l[-1]] and [l[0]] on the result of a split (never empty). *)
Definition last_piece (l : list string) : string := List.last l EmptyString.
Definition first_piece (l : list string) : string := List.hd EmptyString l.

(** [a or b] where [a] is an optional string: [None] and [''] are falsy. *)
Definition str_or (a : option string) (b : string) : string :=
  match a with
  | Some (String c s) => String c s
  | _ => b
  end.

Definition not_str (s : string) : bool :=
  match s with EmptyString => true | _ => false end.

Definition not_opt_str (a : option string) : bool :=
  match a with
  | Some (String _ _) => false
  | _ => true
  end.

End Py.

(** ** [ApiConfig] *)

Record ApiConfig : Type := mkApiConfig {
  url : string;
  type : string;
  query : option string;
  params : list (string * string);
  headers : list (string * string);
  label : string;
  table_name : string;
  retry_attempts : Z;
  timeout : Z
}.

(** Arguments of [ApiConfig.__init__]; an omitted keyword argument is
    [None], and [retry_attempts], [timeout] carry their defaults. *)
Record ApiArgs : Type := mkApiArgs {
  a_url : string;
  a_api_type : string;
  a_query : option string;
  a_label : option string;
  a_params : option (list (string * string));
  a_headers : option (list (string * string));
  a_table_name : option string;
  a_retry_attempts : Z;
  a_timeout : Z
}.

Definition default_label (u : string) : string :=
  Py.first_piece (Py.split "/" (Py.last_piece (Py.split "//" u))).

Definition default_table_name (lbl : string) : string :=
  Py.replace "-" "_" (Py.replace "." "_" (Py.lower lbl)).

Definition ApiConfig_init (a : ApiArgs) : result ApiConfig :=
  let lbl := Py.str_or (a_label a) (default_label (a_url a)) in
  let tbl := Py.str_or (a_table_name a) (default_table_name lbl) in
  if Py.not_str (a_url a) then
    Raise (ValueError "URL is required for ApiConfig")
  else if negb (Py.str_eqb (a_api_type a) "REST" || Py.str_eqb (a_api_type a) "GraphQL") then
    Raise (ValueError "api_type must be 'REST' or 'GraphQL'")
  else if Py.str_eqb (a_api_type a) "GraphQL" && Py.not_opt_str (a_query a) then
    Raise (ValueError "Query is required for GraphQL API")
  else
    Ok {| url := a_url a;
          type := a_api_type a;
          query := a_query a;
          params := default [] (a_params a);
          headers := default [] (a_headers a);
          label := lbl;
          table_name := tbl;
          retry_attempts := a_retry_attempts a;
          timeout := a_timeout a |}.

(** ** The fetch stage *)

(** What the peer answers to one request: either the exchange itself
    raises, or a response arrives with a status and a body that
    [response.json()] decodes or rejects. *)
Inductive http_reply : Type :=
| NoReply (e : exn)
| Reply (status : Z) (body : result json).

(** Observable events of the fetch stage, oldest first: the requests
    sent and the pauses of the retry wrapper. *)
Inductive event : Type :=
| Request (method : string) (target : string)
| Backoff (tries : nat).

Definition is_request_to (u : string) (e : event) : bool :=
  match e with
  | Request _ t => Py.str_eqb t u
  | Backoff _ => false
  end.

(** Number of requests sent to [u] in a trace: the attempts made. *)
Definition attempts (u : string) (log : list event) : nat :=
  length (filter (fun e => is_request_to u e = true) log).

(** [a[i]] for a sequence and a Python int: negative indices count from
    the end. *)
Definition py_index {A} (l : list A) (i : Z) : option A :=
  if (0 <=? i) then l !! Z.to_nat i
  else if (0 <=? Z.of_nat (length l) + i) then l !! Z.to_nat (Z.of_nat (length l) + i)
  else None.

(** The environment of one run: the HTTP peer (the reply to the [n]-th
    request sent to a URL), whether [CREATE DATABASE IF NOT EXISTS]
    fails, which database operations fail (by their rank in the run),
    and what pandas makes of a list holding something that is not an
    object, which differs between pandas releases. *)
Record Env : Type := mkEnv {
  http : string → nat → http_reply;
  db_init_fails : bool;
  db_fault : nat → bool;
  normalize_irregular : list json → result (list pydict)
}.

(** A payload is a [json]; Python's [None] is [JNull].  [_do_fetch]
    returns [Some (api, payload)], or [None] when neither branch of the
    dispatch is taken and the function falls off its end. *)
Definition exchange (env : Env) (method : string) (api : ApiConfig) (log : list event)
  : result (option (ApiConfig * json)) * list event :=
  let log' := log ++ [Request method (url api)] in
  match http env (url api) (attempts (url api) log) with
  | NoReply e => (Raise e, log')
  | Reply status body =>
      if negb (status =? 200) then (Ok (Some (api, JNull)), log')
      else match body with
           | Ok data => (Ok (Some (api, data)), log')
           | Raise e => (Raise e, log')
           end
  end.

Definition _do_fetch (env : Env) (api : ApiConfig) (log : list event)
  : result (option (ApiConfig * json)) * list event :=
  if Py.str_eqb (type api) "REST" then exchange env "GET" api log
  else if Py.str_eqb (type api) "GraphQL" then exchange env "POST" api log
  else (Ok None, log).

(** The body of [fetch_data]: every [Exception] of [_do_fetch] is caught
    and turned into the absence outcome. *)
Definition fetch_data_body (env : Env) (api : ApiConfig) (log : list event)
  : result (option (ApiConfig * json)) * list event :=
  match _do_fetch env api log with
  | (Ok r, log') => (Ok r, log')
  | (Raise _, log') => (Ok (Some (api, JNull)), log')
  end.

(** [backoff.on_exception(wait_gen, exceptions, max_tries)]: call the
    target; on one of [exceptions], give up (re-raise) when the number of
    tries reached [max_tries], else sleep and call again.  Any other
    exception propagates at once.  [remaining] is [max_tries - tries]. *)
Fixpoint on_exception_loop {A} (retry_on : exn → bool) (remaining tries : nat)
    (target : list event → result A * list event) (log : list event)
  : result A * list event :=
  match target log with
  | (Ok a, log') => (Ok a, log')
  | (Raise e, log') =>
      if retry_on e then
        match remaining with
        | O => (Raise e, log')
        | S r => on_exception_loop retry_on r (S tries) target (log' ++ [Backoff tries])
        end
      else (Raise e, log')
  end.

Definition on_exception {A} (retry_on : exn → bool) (max_tries : nat)
    (target : list event → result A * list event) (log : list event)
  : result A * list event :=
  on_exception_loop retry_on (Nat.pred max_tries) 1%nat target log.

Definition retryable (e : exn) : bool :=
  match e with
  | ClientError | TimeoutError => true
  | _ => false
  end.

Definition fetch_data (env : Env) (api : ApiConfig) (log : list event)
  : result (option (ApiConfig * json)) * list event :=
  on_exception retryable 3 (fetch_data_body env api) log.

(** ** Python operations on decoded JSON *)

(** Truth value of a payload: [None], [False], [0], [''], [[]] and [{}]
    are falsy. *)
Definition truthy (v : json) : bool :=
  match v with
  | JNull => false
  | JBool b => b
  | JInt n => negb (n =? 0)
  | JStr s => negb (Py.not_str s)
  | JList l => match l with [] => false | _ => true end
  | JDict d => match d with [] => false | _ => true end
  end.

Fixpoint dict_get (k : string) (d : pydict) : option json :=
  match d with
  | [] => None
  | (k', v) :: rest => if Py.str_eqb k' k then Some v else dict_get k rest
  end.

Definition dict_has (k : string) (d : pydict) : bool :=
  match dict_get k d with Some _ => true | None => false end.

(** [d[k] = v] on a dict: an existing key keeps its position. *)
Fixpoint dict_set (k : string) (v : json) (d : pydict) : pydict :=
  match d with
  | [] => [(k, v)]
  | (k', v') :: rest =>
      if Py.str_eqb k' k then (k, v) :: rest else (k', v') :: dict_set k v rest
  end.

Definition is_str (k : string) (v : json) : bool :=
  match v with
  | JStr s => Py.str_eqb s k
  | _ => false
  end.

(** [sub in s] on strings. *)
Fixpoint is_substring (sub s : string) : bool :=
  String.prefix sub s ||
  match s with
  | EmptyString => false
  | String _ s' => is_substring sub s'
  end.

(** ['k' in v]: key of a dict, element of a list, substring of a str;
    the other values are not iterable. *)
Definition contains (k : string) (v : json) : result bool :=
  match v with
  | JDict d => Ok (dict_has k d)
  | JList l => Ok (existsb (is_str k) l)
  | JStr s => Ok (is_substring k s)
  | _ => Raise TypeError
  end.

(** [v.get(k, dflt)]: only dicts have the method. *)
Definition get_method (v : json) (k : string) (dflt : json) : result json :=
  match v with
  | JDict d => Ok (default dflt (dict_get k d))
  | _ => Raise AttributeError
  end.

Definition str_index (s : string) (i : Z) : option json :=
  (fun c => JStr (String c EmptyString)) <$> py_index (list_ascii_of_string s) i.

(** [v[k]]. *)
Definition getitem (v k : json) : result json :=
  match v with
  | JDict d =>
      match k with
      | JStr s => match dict_get s d with Some x => Ok x | None => Raise KeyError end
      | JList _ | JDict _ => Raise TypeError
      | _ => Raise KeyError
      end
  | JList l =>
      match k with
      | JInt i => match py_index l i with Some x => Ok x | None => Raise IndexError end
      | JBool b =>
          match py_index l (if b then 1 else 0) with
          | Some x => Ok x
          | None => Raise IndexError
          end
      | _ => Raise TypeError
      end
  | JStr s =>
      match k with
      | JInt i => match str_index s i with Some x => Ok x | None => Raise IndexError end
      | JBool b =>
          match str_index s (if b then 1 else 0) with
          | Some x => Ok x
          | None => Raise IndexError
          end
      | _ => Raise TypeError
      end
  | _ => Raise TypeError
  end.

(** [next(iter(v), None)]. *)
Definition first_of (v : json) : result json :=
  match v with
  | JDict d => Ok (match d with [] => JNull | (k, _) :: _ => JStr k end)
  | JList l => Ok (match l with [] => JNull | x :: _ => x end)
  | JStr s => Ok (match s with EmptyString => JNull | String c _ => JStr (String c EmptyString) end)
  | _ => Raise TypeError
  end.

Definition is_list (v : json) : bool :=
  match v with JList _ => true | _ => false end.

Definition is_dict (v : json) : bool :=
  match v with JDict _ => true | _ => false end.

(** [isinstance(v, (list, dict))]. *)
Definition is_composite (v : json) : bool := is_list v || is_dict v.

(** ** The part of pandas the pipeline uses

    A frame is a list of column labels and the rows under them.  A cell
    is a Python object or the missing marker NaN that pandas puts where
    a record lacks a column.  The dtype inference of pandas (ints turned
    into floats next to a missing value) is not modelled: cells keep the
    Python objects. *)

Inductive cell : Type :=
| NaN
| Val (v : json).

Record DataFrame : Type := mkFrame {
  columns : list string;
  rows : list (list cell)
}.

Definition add_key (cols : list string) (k : string) : list string :=
  if existsb (Py.str_eqb k) cols then cols else cols ++ [k].

(** Column labels of a list of records: the keys in order of first
    appearance. *)
Definition union_keys (data : list pydict) : list string :=
  fold_left (fun cols r => fold_left add_key (r.*1) cols) data [].

Definition cell_of (r : pydict) (c : string) : cell :=
  match dict_get c r with
  | Some v => Val v
  | None => NaN
  end.

(** [pd.DataFrame(data)] for a list of dicts. *)
Definition DataFrame_of (data : list pydict) : DataFrame :=
  let cols := union_keys data in
  {| columns := cols; rows := (fun r => cell_of r <$> cols) <$> data |}.

(** Flattening of one object by [pd.json_normalize]: the entries whose
    value is not a dict first, in order, then the leaves of the nested
    dicts under dotted keys; a repeated key keeps its first position and
    takes the last value.  [fuel] bounds the nesting depth. *)
Fixpoint normalise_json (fuel : nat) (data : json) (key_string : string) (acc : pydict) : pydict :=
  match fuel with
  | O => acc
  | S f =>
      match data with
      | JDict d =>
          fold_left (fun acc' kv =>
                       let new_key :=
                         if Py.not_str key_string then kv.1
                         else key_string +:+ "." +:+ kv.1 in
                       normalise_json f kv.2 new_key acc') d acc
      | _ => dict_set key_string data acc
      end
  end.

Fixpoint depth (v : json) : nat :=
  match v with
  | JList l => S (fold_right (fun x n => Nat.max (depth x) n) O l)
  | JDict d => S (fold_right (fun kv n => Nat.max (depth kv.2) n) O d)
  | _ => 1%nat
  end.

Definition normalise_json_ordered (d : pydict) : pydict :=
  let top := filter (fun kv => is_dict kv.2 = false) d in
  let nested := filter (fun kv => is_dict kv.2 = true) d in
  fold_left (fun acc kv => dict_set kv.1 kv.2 acc)
            (normalise_json (S (depth (JDict nested))) (JDict nested) EmptyString [])
            top.

Definition as_dict (v : json) : option pydict :=
  match v with JDict d => Some d | _ => None end.

(** [df.where(pd.notnull(df), None)]: NaN and [None] both become [None]. *)
Definition notnull_or_None (c : cell) : json :=
  match c with
  | NaN => JNull
  | Val v => v
  end.

(** [df.to_dict(orient='records')]: one dict per row, built by zipping
    the column arrays; a frame without columns yields no record. *)
Definition to_dict_records (df : DataFrame) : list pydict :=
  match columns df with
  | [] => []
  | _ => (fun row => zip (columns df) (notnull_or_None <$> row)) <$> rows df
  end.

(** [pd.json_normalize(l)], then [where], then [to_dict], on the list
    [l] the transformer built. *)
Definition normalize_records (env : Env) (l : list json) : result (list pydict) :=
  match mapM as_dict l with
  | Some ds => Ok (to_dict_records (DataFrame_of (normalise_json_ordered <$> ds)))
  | None => normalize_irregular env l
  end.

(** ** [transform_data] *)

(** The GraphQL branch: unwrap the [data] envelope. *)
Definition unwrap_graphql (raw_data : json) : result json :=
  has_data ← contains "data" raw_data;
  if has_data : bool then
    d ← get_method raw_data "data" (JDict []);
    has_characters ← contains "characters" d;
    if has_characters : bool then
      d1 ← getitem raw_data (JStr "data");
      c ← getitem d1 (JStr "characters");
      getitem c (JStr "results")
    else
      d' ← get_method raw_data "data" (JDict []);
      has_countries ← contains "countries" d';
      if has_countries : bool then
        d1 ← getitem raw_data (JStr "data");
        getitem d1 (JStr "countries")
      else
        d1 ← getitem raw_data (JStr "data");
        first_key ← first_of d1;
        if truthy first_key then
          d2 ← getitem raw_data (JStr "data");
          getitem d2 first_key
        else Ok raw_data
  else Ok raw_data.

(** The [for key in ['results', 'items', 'data'] ... else] loop on a
    dict. *)
Fixpoint extract_nested (keys : list string) (d : pydict) : list json :=
  match keys with
  | [] => [JDict d]
  | key :: rest =>
      match dict_get key d with
      | Some (JList l) => l
      | _ => extract_nested rest d
      end
  end.

Definition transform_steps (env : Env) (raw_data : json) (api_config : ApiConfig)
  : result (list pydict) :=
  raw ← (if Py.str_eqb (type api_config) "GraphQL"
         then unwrap_graphql raw_data else Ok raw_data);
  match raw with
  | JList l => normalize_records env l
  | JDict d => normalize_records env (extract_nested ["results"; "items"; "data"] d)
  | _ => Ok []
  end.

Definition transform_data (env : Env) (raw_data : json) (api_config : ApiConfig)
  : list pydict :=
  if negb (truthy raw_data) then []
  else match transform_steps env raw_data api_config with
       | Ok records => records
       | Raise _ => []
       end.

(** ** [json.dumps] and [json.loads]

    [dumps] writes with the default separators and [ensure_ascii];
    [loads] is the standard decoder on the texts that denote values of
    [json].  A text that denotes a floating point number, or a character
    above code 255, has no value in the model and is rejected. *)

Module Json.

Definition dquote : ascii := Eval cbv in ascii_of_nat 34.
Definition backslash : ascii := Eval cbv in ascii_of_nat 92.

Definition hex_digit (n : nat) : ascii :=
  match n with
  | 0 => "0" | 1 => "1" | 2 => "2" | 3 => "3" | 4 => "4" | 5 => "5" | 6 => "6"
  | 7 => "7" | 8 => "8" | 9 => "9" | 10 => "a" | 11 => "b" | 12 => "c"
  | 13 => "d" | 14 => "e" | _ => "f"
  end%nat%char.

Definition esc (c : ascii) : string := String backslash (String c EmptyString).

(** One character of a string literal as [json.dumps] writes it: the
    short escapes, the printable ASCII characters as they are, and
    [\u00xx] for the rest. *)
Definition escape_char (c : ascii) : string :=
  let n := nat_of_ascii c in
  if Nat.eqb n 34 then esc dquote
  else if Nat.eqb n 92 then esc backslash
  else if Nat.eqb n 10 then esc "n"
  else if Nat.eqb n 13 then esc "r"
  else if Nat.eqb n 9 then esc "t"
  else if Nat.eqb n 12 then esc "f"
  else if Nat.eqb n 8 then esc "b"
  else if (Nat.leb 32 n && Nat.leb n 126)%bool then String c EmptyString
  else String backslash
         (String "u" (String "0" (String "0"
            (String (hex_digit (n / 16)) (String (hex_digit (n mod 16)) EmptyString))))).

Fixpoint escape_string (s : string) : string :=
  match s with
  | EmptyString => EmptyString
  | String c s' => escape_char c +:+ escape_string s'
  end.

Definition dumps_str (s : string) : string :=
  String dquote (escape_string s +:+ String dquote EmptyString).

Fixpoint string_of_uint (u : Decimal.uint) : string :=
  match u with
  | Decimal.Nil => EmptyString
  | Decimal.D0 u' => String "0" (string_of_uint u')
  | Decimal.D1 u' => String "1" (string_of_uint u')
  | Decimal.D2 u' => String "2" (string_of_uint u')
  | Decimal.D3 u' => String "3" (string_of_uint u')
  | Decimal.D4 u' => String "4" (string_of_uint u')
  | Decimal.D5 u' => String "5" (string_of_uint u')
  | Decimal.D6 u' => String "6" (string_of_uint u')
  | Decimal.D7 u' => String "7" (string_of_uint u')
  | Decimal.D8 u' => String "8" (string_of_uint u')
  | Decimal.D9 u' => String "9" (string_of_uint u')
  end.

(** [repr] of a Python int. *)
Definition dumps_int (n : Z) : string :=
  match Z.to_int n with
  | Decimal.Pos u => string_of_uint u
  | Decimal.Neg u => String "-" (string_of_uint u)
  end.

Fixpoint dumps (v : json) : string :=
  match v with
  | JNull => "null"
  | JBool true => "true"
  | JBool false => "false"
  | JInt n => dumps_int n
  | JStr s => dumps_str s
  | JList l =>
      String "["
        ((fix items (l : list json) : string :=
            match l with
            | [] => EmptyString
            | x :: rest =>
                match rest with
                | [] => dumps x
                | _ => dumps x +:+ ", " +:+ items rest
                end
            end) l +:+ "]")
  | JDict d =>
      String "{"
        ((fix members (d : pydict) : string :=
            match d with
            | [] => EmptyString
            | kv :: rest =>
                match rest with
                | [] => dumps_str kv.1 +:+ ": " +:+ dumps kv.2
                | _ => dumps_str kv.1 +:+ ": " +:+ dumps kv.2 +:+ ", " +:+ members rest
                end
            end) d +:+ "}")
  end.

(** *** The decoder *)

Definition is_ws (c : ascii) : bool :=
  let n := nat_of_ascii c in
  (Nat.eqb n 32 || Nat.eqb n 9 || Nat.eqb n 10 || Nat.eqb n 13)%bool.

Fixpoint skip_ws (s : string) : string :=
  match s with
  | EmptyString => EmptyString
  | String c s' => if is_ws c then skip_ws s' else s
  end.

Definition digit_cons (c : ascii) : option (Decimal.uint → Decimal.uint) :=
  match nat_of_ascii c with
  | 48 => Some Decimal.D0 | 49 => Some Decimal.D1 | 50 => Some Decimal.D2
  | 51 => Some Decimal.D3 | 52 => Some Decimal.D4 | 53 => Some Decimal.D5
  | 54 => Some Decimal.D6 | 55 => Some Decimal.D7 | 56 => Some Decimal.D8
  | 57 => Some Decimal.D9 | _ => None
  end%nat.

(** The longest run of digits at the head of [s]. *)
Fixpoint scan_digits (s : string) : Decimal.uint * string :=
  match s with
  | EmptyString => (Decimal.Nil, EmptyString)
  | String c s' =>
      match digit_cons c with
      | Some d => let '(u, r) := scan_digits s' in (d u, r)
      | None => (Decimal.Nil, s)
      end
  end.

(** A fraction or an exponent follows: the number is a float. *)
Definition starts_float_part (s : string) : bool :=
  match s with
  | EmptyString => false
  | String c _ =>
      let n := nat_of_ascii c in
      (Nat.eqb n 46 || Nat.eqb n 101 || Nat.eqb n 69)%bool
  end.

Definition uint_normal (u : Decimal.uint) : bool :=
  if Decimal.uint_eq_dec (Decimal.unorm u) u then true else false.

(** An integer literal: the sign is read by the caller, then comes 0
    or a run of digits that does not start with 0; a longer run after a
    leading zero is an error in every context. *)
Definition scan_number (negative : bool) (s : string) : option (json * string) :=
  let '(u, rest) := scan_digits s in
  match u with
  | Decimal.Nil => None
  | _ =>
      if uint_normal u && negb (starts_float_part rest)
      then Some (JInt (if negative then - Z.of_uint u else Z.of_uint u), rest)
      else None
  end.

Definition hex_val (c : ascii) : option nat :=
  let n := nat_of_ascii c in
  if (Nat.leb 48 n && Nat.leb n 57)%bool then Some (n - 48)%nat
  else if (Nat.leb 97 n && Nat.leb n 102)%bool then Some (n - 87)%nat
  else if (Nat.leb 65 n && Nat.leb n 70)%bool then Some (n - 55)%nat
  else None.

Definition decode_u (h1 h2 h3 h4 : ascii) : option ascii :=
  a ← hex_val h1; b ← hex_val h2; c ← hex_val h3; d ← hex_val h4;
  let n := (((a * 16 + b) * 16 + c) * 16 + d)%nat in
  if Nat.ltb n 256 then Some (ascii_of_nat n) else None.

Definition simple_escape (e : ascii) : option ascii :=
  match nat_of_ascii e with
  | 34 => Some dquote
  | 92 => Some backslash
  | 47 => Some "/"%char
  | 98 => Some (ascii_of_nat 8)
  | 102 => Some (ascii_of_nat 12)
  | 110 => Some (ascii_of_nat 10)
  | 114 => Some (ascii_of_nat 13)
  | 116 => Some (ascii_of_nat 9)
  | _ => None
  end%nat.

Definition push (c : ascii) (r : option (string * string)) : option (string * string) :=
  match r with
  | Some (str, rest) => Some (String c str, rest)
  | None => None
  end.

(** The body of a string literal, after its opening quote, up to and
    including the closing quote (strict mode: no raw control
    character). *)
Fixpoint scan_string (s : string) : option (string * string) :=
  match s with
  | EmptyString => None
  | String c s' =>
      if Ascii.eqb c dquote then Some (EmptyString, s')
      else if Ascii.eqb c backslash then
        match s' with
        | EmptyString => None
        | String e s'' =>
            if Ascii.eqb e "u" then
              match s'' with
              | String h1 (String h2 (String h3 (String h4 r))) =>
                  match decode_u h1 h2 h3 h4 with
                  | Some ch => push ch (scan_string r)
                  | None => None
                  end
              | _ => None
              end
            else
              match simple_escape e with
              | Some ch => push ch (scan_string s'')
              | None => None
              end
        end
      else if Nat.ltb (nat_of_ascii c) 32 then None
      else push c (scan_string s')
  end.

(** [dict(pairs)]: a repeated key keeps its first position and takes
    the last value. *)
Definition dict_of_pairs (pairs : pydict) : pydict :=
  fold_left (fun acc kv => dict_set kv.1 kv.2 acc) pairs [].

Definition keyword (s : string) : option (json * string) :=
  match s with
  | String "n" (String "u" (String "l" (String "l" r))) => Some (JNull, r)
  | String "t" (String "r" (String "u" (String "e" r))) => Some (JBool true, r)
  | String "f" (String "a" (String "l" (String "s" (String "e" r)))) => Some (JBool false, r)
  | _ => None
  end.

Fixpoint parse_value (fuel : nat) (s : string) : option (json * string) :=
  match fuel with
  | O => None
  | S f =>
      match s with
      | EmptyString => None
      | String c s' =>
          if Ascii.eqb c dquote then
            match scan_string s' with
            | Some (str, r) => Some (JStr str, r)
            | None => None
            end
          else if Ascii.eqb c "[" then
            match skip_ws s' with
            | String "]" r => Some (JList [], r)
            | s1 =>
                match parse_items f s1 with
                | Some (l, r) => Some (JList l, r)
                | None => None
                end
            end
          else if Ascii.eqb c "{" then
            match skip_ws s' with
            | String "}" r => Some (JDict [], r)
            | s1 =>
                match parse_members f s1 with
                | Some (d, r) => Some (JDict (dict_of_pairs d), r)
                | None => None
                end
            end
          else if Ascii.eqb c "-" then scan_number true s'
          else match keyword s with
               | Some r => Some r
               | None => scan_number false s
               end
      end
  end
with parse_items (fuel : nat) (s : string) : option (list json * string) :=
  match fuel with
  | O => None
  | S f =>
      match parse_value f s with
      | None => None
      | Some (v, r) =>
          match skip_ws r with
          | String "]" r' => Some ([v], r')
          | String "," r' =>
              match parse_items f (skip_ws r') with
              | Some (vs, r'') => Some (v :: vs, r'')
              | None => None
              end
          | _ => None
          end
      end
  end
with parse_members (fuel : nat) (s : string) : option (pydict * string) :=
  match fuel with
  | O => None
  | S f =>
      match s with
      | EmptyString => None
      | String c s' =>
          if Ascii.eqb c dquote then
            match scan_string s' with
            | None => None
            | Some (k, r) =>
                match skip_ws r with
                | String ":" r1 =>
                    match parse_value f (skip_ws r1) with
                    | None => None
                    | Some (v, r2) =>
                        match skip_ws r2 with
                        | String "}" r3 => Some ([(k, v)], r3)
                        | String "," r3 =>
                            match parse_members f (skip_ws r3) with
                            | Some (kvs, r4) => Some ((k, v) :: kvs, r4)
                            | None => None
                            end
                        | _ => None
                        end
                    end
                | _ => None
                end
            end
          else None
      end
  end.

Definition loads (s : string) : result json :=
  match parse_value (S (String.length s)) (skip_ws s) with
  | Some (v, r) =>
      match skip_ws r with
      | EmptyString => Ok v
      | _ => Raise (ValueError "Extra data")
      end
  | None => Raise (ValueError "Expecting value")
  end.

End Json.

(** ** The relational store

    A table has a column list and rows; a row maps the columns it was
    written with to cells, and reads as NULL elsewhere.  Every database
    operation takes the next rank in [ops]; the environment says which
    ranks fail.  A write is one unit: it is applied whole or not at all.
    [writes] records the [to_sql] calls, oldest first. *)

Inductive if_exists_mode : Type :=
| Replace
| Append.

Record Table : Type := mkTable {
  tcolumns : list string;
  trows : list (list (string * cell))
}.

Record WriteEvent : Type := mkWrite {
  w_table : string;
  w_mode : if_exists_mode;
  w_rows : nat;
  w_committed : bool
}.

Record Db : Type := mkDb {
  tables : gmap string Table;
  ops : nat;
  writes : list WriteEvent
}.

Definition subset_of (xs ys : list string) : bool :=
  forallb (fun x => existsb (Py.str_eqb x) ys) xs.

Definition sql_rows (df : DataFrame) : list (list (string * cell)) :=
  (fun row => zip (columns df) row) <$> rows df.

(** [chunk.to_sql(name, con, if_exists, index=False, method='multi')].
    [Replace] drops the table and creates it from the frame.  [Append]
    creates the table from the frame when it is missing and inserts into
    it otherwise, which the database refuses when the frame has a column
    the table lacks. *)
Definition to_sql (env : Env) (name : string) (df : DataFrame) (mode : if_exists_mode) (db : Db)
  : result unit * Db :=
  let failed :=
    (Raise DatabaseError,
     {| tables := tables db; ops := S (ops db);
        writes := writes db ++ [mkWrite name mode (length (rows df)) false] |}) in
  let done (t : Table) :=
    (Ok tt,
     {| tables := <[name := t]> (tables db); ops := S (ops db);
        writes := writes db ++ [mkWrite name mode (length (rows df)) true] |}) in
  if db_fault env (ops db) then failed
  else
    match mode, tables db !! name with
    | Append, Some t =>
        if subset_of (columns df) (tcolumns t)
        then done {| tcolumns := tcolumns t; trows := trows t ++ sql_rows df |}
        else failed
    | _, _ => done {| tcolumns := columns df; trows := sql_rows df |}
    end.

(** ** [store_data] *)

Definition chunk_size : nat := 1000.

(** [range(0, stop, step)]. *)
Definition range0 (stop step : nat) : list nat :=
  (fun j => j * step)%nat <$> seq 0 ((stop + step - 1) / step)%nat.

(** [df.iloc[i:j]]. *)
Definition iloc (df : DataFrame) (i j : nat) : DataFrame :=
  {| columns := columns df; rows := take (j - i) (drop i (rows df)) |}.

Definition column_cells (df : DataFrame) (j : nat) : list cell :=
  (fun row => default NaN (row !! j)) <$> rows df.

Definition cell_is_composite (c : cell) : bool :=
  match c with
  | Val v => is_composite v
  | NaN => false
  end.

(** [json.dumps(x) if x is not None else None] on a cell; the missing
    marker is a float and is written as the text NaN. *)
Definition dump_cell (c : cell) : cell :=
  match c with
  | Val JNull => Val JNull
  | Val v => Val (JStr (Json.dumps v))
  | NaN => Val (JStr "NaN")
  end.

(** The loop over [df.columns] that turns the columns holding a list or
    a dict into JSON text. *)
Definition convert_complex (df : DataFrame) : DataFrame :=
  let complex := (fun j => existsb cell_is_composite (column_cells df j))
                   <$> seq 0 (length (columns df)) in
  {| columns := columns df;
     rows := (fun row =>
                (fun jc => if default false (complex !! jc.1) then dump_cell jc.2 else jc.2)
                  <$> imap pair row) <$> rows df |}.

Fixpoint write_chunks (env : Env) (name : string) (if_exists : if_exists_mode)
    (df : DataFrame) (starts : list nat) (db : Db) : result unit * Db :=
  match starts with
  | [] => (Ok tt, db)
  | i :: rest =>
      let chunk := iloc df i (i + chunk_size) in
      match to_sql env name chunk (if Nat.ltb 0 i then Append else if_exists) db with
      | (Ok _, db') => write_chunks env name if_exists df rest db'
      | (Raise e, db') => (Raise e, db')
      end
  end.

(** The [inspect(engine)] / [get_table_names()] step: one database
    operation. *)
Definition table_exists (env : Env) (name : string) (db : Db) : result bool * Db :=
  let db' := {| tables := tables db; ops := S (ops db); writes := writes db |} in
  if db_fault env (ops db) then (Raise DatabaseError, db')
  else (Ok (bool_decide (is_Some (tables db !! name))), db').

Definition store_data (env : Env) (data : list pydict) (api_config : ApiConfig) (db : Db)
  : bool * Db :=
  match data with
  | [] => (false, db)
  | _ =>
      let df := convert_complex (DataFrame_of data) in
      match table_exists env (table_name api_config) db with
      | (Raise _, db1) => (false, db1)
      | (Ok present, db1) =>
          let if_exists := if present : bool then Replace else Append in
          let total_rows := length (rows df) in
          match write_chunks env (table_name api_config) if_exists df
                             (range0 total_rows chunk_size) db1 with
          | (Ok _, db2) => (true, db2)
          | (Raise _, db2) => (false, db2)
          end
      end
  end.

(** ** [process_data_in_thread_pool] *)

Definition process_data_in_thread_pool (env : Env) (api_config : ApiConfig) (raw_data : json)
    (db : Db) : nat * Db :=
  let transformed_data := transform_data env raw_data api_config in
  match transformed_data with
  | [] => (O, db)
  | _ =>
      let '(success, db') := store_data env transformed_data api_config db in
      if success : bool then (length transformed_data, db') else (O, db')
  end.

(** ** [process_apis] *)

Record World : Type := mkWorld {
  net : list event;
  db : Db
}.

(** [asyncio.gather] with [return_exceptions=True] over the fetch
    tasks: every fetch runs, an exception becomes a result. *)
Fixpoint gather (env : Env) (apis : list ApiConfig) (log : list event)
  : list (result (option (ApiConfig * json))) * list event :=
  match apis with
  | [] => ([], log)
  | api :: rest =>
      let '(r, log1) := fetch_data env api log in
      let '(rs, log2) := gather env rest log1 in
      (r :: rs, log2)
  end.

(** The submission loop: the units handed to the executor, or the
    [TypeError] of unpacking a result that is not a pair, together with
    the units submitted before it. *)
Fixpoint submit (api_results : list (result (option (ApiConfig * json))))
  : result unit * list (ApiConfig * json) :=
  match api_results with
  | [] => (Ok tt, [])
  | Raise _ :: rest => submit rest
  | Ok None :: _ => (Raise TypeError, [])
  | Ok (Some (api_config, raw_data)) :: rest =>
      let '(r, units) := submit rest in
      if truthy raw_data then (r, (api_config, raw_data) :: units) else (r, units)
  end.

(** The units run; each yields the label and the row count that the
    collection loop stores under it. *)
Fixpoint run_units (env : Env) (units : list (ApiConfig * json)) (db : Db)
  : list (string * nat) * Db :=
  match units with
  | [] => ([], db)
  | (api_config, raw_data) :: rest =>
      let '(row_count, db1) := process_data_in_thread_pool env api_config raw_data db in
      let '(counts, db2) := run_units env rest db1 in
      ((label api_config, row_count) :: counts, db2)
  end.

(** [results[api_config.label] = row_count], in submission order. *)
Definition collect (counts : list (string * nat)) : gmap string nat :=
  fold_left (fun results lc => <[lc.1 := lc.2]> results) counts ∅.

Definition process_apis (env : Env) (apis : list ApiConfig) (w : World)
  : result (gmap string nat) * World :=
  if db_init_fails env then (Raise DatabaseError, w)
  else
    let '(api_results, log) := gather env apis (net w) in
    let '(r, units) := submit api_results in
    let '(counts, db') := run_units env units (db w) in
    match r with
    | Ok _ => (Ok (collect counts), {| net := log; db := db' |})
    | Raise e => (Raise e, {| net := log; db := db' |})
    end.

(** ** The consumer: the decoding step of [get_table_data] in [main.py] *)

Definition ends_with (c : ascii) (s : string) : bool :=
  match List.last (Some <$> list_ascii_of_string s) None with
  | Some c' => Ascii.eqb c' c
  | None => false
  end.

Definition starts_with (c : ascii) (s : string) : bool :=
  match s with
  | String c' _ => Ascii.eqb c' c
  | EmptyString => false
  end.

(** A text value that looks like a JSON object or array is replaced by
    its decoding when it decodes; everything else is returned as read. *)
Definition decode_value (value : json) : json :=
  match value with
  | JStr s =>
      if (starts_with "{" s && ends_with "}" s) || (starts_with "[" s && ends_with "]" s)
      then match Json.loads s with
           | Ok v => v
           | Raise _ => value
           end
      else value
  | _ => value
  end.

(** ** Auxiliary notions and sample inputs

    Notions that the statements below use, and the concrete sources,
    payloads and environments at which they are instantiated. *)

(** The HTTP method of the exchange a validated source leads to. *)
Definition method_of (api : ApiConfig) : string :=
  if Py.str_eqb (type api) "REST" then "GET" else "POST".

Definition args_empty_url : ApiArgs :=
  mkApiArgs EmptyString "REST" None (Some "posts") None None None 3 30.

Definition args_bad_kind : ApiArgs :=
  mkApiArgs "https://example.org/feed" "SOAP" None None None None None 3 30.

Definition args_graphql_no_query : ApiArgs :=
  mkApiArgs "https://example.org/graphql" "GraphQL" None None None None None 3 30.

Definition args_graphql_empty_query : ApiArgs :=
  mkApiArgs "https://example.org/graphql" "GraphQL" (Some EmptyString) None None None None 3 30.

Definition quiet_env (reply : string → nat → http_reply) : Env :=
  {| http := reply;
     db_init_fails := false;
     db_fault := fun _ => false;
     normalize_irregular := fun _ => Raise TypeError |}.

Definition rest_source (u lbl : string) (retries : Z) : ApiConfig :=
  {| url := u; type := "REST"; query := None; params := []; headers := [];
     label := lbl; table_name := default_table_name lbl;
     retry_attempts := retries; timeout := 30 |}.

Definition graphql_source (u lbl q : string) : ApiConfig :=
  {| url := u; type := "GraphQL"; query := Some q; params := []; headers := [];
     label := lbl; table_name := default_table_name lbl;
     retry_attempts := 3; timeout := 30 |}.

(** A peer that is down: every exchange raises a connection error. *)
Definition env_down : Env := quiet_env (fun _ _ => NoReply ClientError).
Definition src_down : ApiConfig := rest_source "https://down.example/api" "down" 3.

(** A peer that answers every request with status 500. *)
Definition env_500 : Env := quiet_env (fun _ _ => Reply 500 (Ok (JStr "Internal Server Error"))).
Definition src_500 : ApiConfig := rest_source "https://broken.example/api" "broken" 3.

Definition args_posts : ApiArgs :=
  mkApiArgs "https://jsonplaceholder.typicode.com/posts" "REST" None (Some "posts")
            None None None 3 30.

Definition api_posts : ApiConfig :=
  {| url := "https://jsonplaceholder.typicode.com/posts"; type := "REST"; query := None;
     params := []; headers := []; label := "posts"; table_name := "posts";
     retry_attempts := 3; timeout := 30 |}.

Definition payload_countries : json :=
  JDict [("data", JDict [("countries", JList [JDict [("name", JStr "X")]])])].

Definition payload_characters : json :=
  JDict [("data",
          JDict [("characters", JDict [("results", JList [JDict [("name", JStr "rick")]])])])].

Definition src_countries : ApiConfig :=
  graphql_source "https://countries.trevorblades.com/graphql" "countries"
                 "query { countries { name capital currency } }".

(** The start offsets of [n] consecutive chunks from chunk [a] on. *)
Definition chunk_starts (a n : nat) : list nat :=
  (fun j => j * chunk_size)%nat <$> seq a n.

(** The rows of the [j]-th chunk of a frame. *)
Definition chunk_rows (df : DataFrame) (j : nat) : list (list cell) :=
  take chunk_size (drop (j * chunk_size) (rows df)).

(** The [to_sql] call for the [j]-th chunk: the table-level mode for
    chunk 0, append for the later ones. *)
Definition chunk_event (name : string) (first_mode : if_exists_mode) (df : DataFrame)
    (committed : bool) (j : nat) : WriteEvent :=
  mkWrite name (match j with O => first_mode | S _ => Append end)
          (length (chunk_rows df j)) committed.

(** The stored form of the first [k] chunks of a frame. *)
Definition rows_upto (df : DataFrame) (k : nat) : list (list (string * cell)) :=
  (fun row => zip (columns df) row) <$> take (k * chunk_size) (rows df).

(** The mode [store_data] picks for the first chunk. *)
Definition first_mode (name : string) (d : Db) : if_exists_mode :=
  if bool_decide (is_Some (tables d !! name)) then Replace else Append.

(** The chunking as the specification words it: full chunks of 1000
    records, then the remainder if there is one. *)
Definition chunk_sizes (total : nat) : list nat :=
  replicate (total / chunk_size) chunk_size
  ++ (if (total mod chunk_size =? 0)%nat then [] else [(total mod chunk_size)%nat]).

(** The writes the specification describes for a successful store:
    chunk 0 in the table-level mode, the others appended, all committed. *)
Definition expected_writes (name : string) (m : if_exists_mode) (total : nat) : list WriteEvent :=
  imap (fun k n => mkWrite name (match k with O => m | S _ => Append end) n true)
       (chunk_sizes total).

Definition empty_db : Db := {| tables := ∅; ops := 0; writes := [] |}.


(** The frame [store_data] writes for a list of records. *)
Definition frame_of (data : list pydict) : DataFrame :=
  convert_complex (DataFrame_of data).

(** Number of chunks of a frame of [total] rows. *)
Definition chunk_count (total : nat) : nat :=
  ((total + chunk_size - 1) / chunk_size)%nat.

(** The outcomes of the fetch stage that are pairs, in submission
    order. *)
Definition fetched (env : Env) (apis : list ApiConfig) (log : list event)
  : list (ApiConfig * json) :=
  omap (fun r => match r with Ok (Some p) => Some p | _ => None end)
       (gather env apis log).1.

(** The units handed to the worker pool. *)
Definition units_of (env : Env) (apis : list ApiConfig) (log : list event)
  : list (ApiConfig * json) :=
  (submit (gather env apis log).1).2.

(** The database as the [j]-th unit finds it. *)
Definition db_before (env : Env) (units : list (ApiConfig * json)) (d : Db) (j : nat) : Db :=
  (run_units env (take j units) d).2.

Definition unit_label (u : ApiConfig * json) : string := label u.1.


Definition rec_id (n : Z) : pydict := [("id", JInt n); ("title", JStr "t")].

(** A database that already holds one row in the table [posts]. *)
Definition db_with_posts : Db :=
  {| tables := {[ "posts" := {| tcolumns := ["id"; "title"];
                                trows := [[("id", Val (JInt 0)); ("title", Val (JStr "old"))]] |} ]};
     ops := 0;
     writes := [] |}.



(** The failure-isolation scenario: one source whose peer is down, one
    whose payload is a bare string, one that delivers two records. *)
Definition src_odd : ApiConfig := rest_source "https://odd.example/status" "odd" 3.
Definition src_items : ApiConfig := rest_source "https://api.example/items" "items" 3.

Definition env_three : Env :=
  quiet_env (fun u _ =>
    if Py.str_eqb u "https://odd.example/status" then Reply 200 (Ok (JStr "maintenance"))
    else if Py.str_eqb u "https://api.example/items"
         then Reply 200 (Ok (JList [JDict (rec_id 1); JDict (rec_id 2)]))
         else NoReply ClientError).

Definition three_sources : list ApiConfig := [src_down; src_odd; src_items].

Definition world0 : World := {| net := []; db := empty_db |}.

(** A peer that delivers 1500 records and a database whose third
    operation fails: the table check and the first chunk pass, the
    second chunk does not. *)
Definition env_second_chunk_fails : Env :=
  {| http := fun _ _ => Reply 200 (Ok (JList (replicate 1500 (JDict (rec_id 7)))));
     db_init_fails := false;
     db_fault := fun n => Nat.eqb n 2;
     normalize_irregular := fun _ => Raise TypeError |}.


(** A non-null scalar of the model: a string, an int or a boolean. *)
Definition is_plain (v : json) : bool :=
  match v with
  | JBool _ | JInt _ | JStr _ => true
  | _ => false
  end.

(** A flat object: distinct keys, scalar values. *)
Definition flat_record (r : pydict) : Prop :=
  NoDup r.*1 ∧ Forall (fun kv => is_composite kv.2 = false) r.

Definition payload_mixed_keys : json :=
  JList [JDict [("a", JStr "x")]; JDict [("b", JStr "y")]].

Definition payload_empty_object : json := JList [JDict []].


(** Well-formed decoded JSON: the keys of every dict are distinct. *)
Fixpoint wf_json (v : json) : Prop :=
  match v with
  | JList l =>
      (fix all (l : list json) : Prop :=
         match l with
         | [] => True
         | x :: rest => wf_json x ∧ all rest
         end) l
  | JDict d =>
      NoDup d.*1
      ∧ (fix all (d : pydict) : Prop :=
           match d with
           | [] => True
           | kv :: rest => wf_json kv.2 ∧ all rest
           end) d
  | _ => True
  end.

(** The text of the elements of a list and of the members of a dict, as
    [Json.dumps] writes them between the brackets. *)
Fixpoint dumps_items (l : list json) : string :=
  match l with
  | [] => EmptyString
  | x :: rest =>
      match rest with
      | [] => Json.dumps x
      | _ => Json.dumps x +:+ ", " +:+ dumps_items rest
      end
  end.

Fixpoint dumps_members (d : pydict) : string :=
  match d with
  | [] => EmptyString
  | kv :: rest =>
      match rest with
      | [] => Json.dumps_str kv.1 +:+ ": " +:+ Json.dumps kv.2
      | _ => Json.dumps_str kv.1 +:+ ": " +:+ Json.dumps kv.2 +:+ ", " +:+ dumps_members rest
      end
  end.

(** Fuel that suffices to decode the text of a value. *)
Fixpoint jfuel (v : json) : nat :=
  match v with
  | JList l =>
      S ((fix sum (l : list json) : nat :=
            match l with
            | [] => O
            | x :: rest => (S (jfuel x) + sum rest)%nat
            end) l)
  | JDict d =>
      S ((fix sum (d : pydict) : nat :=
            match d with
            | [] => O
            | kv :: rest => (S (jfuel kv.2) + sum rest)%nat
            end) d)
  | _ => 1%nat
  end.

(** The cell of a stored row under a column. *)
Fixpoint row_get (k : string) (row : list (string * cell)) : option cell :=
  match row with
  | [] => None
  | (k', c) :: rest => if Py.str_eqb k' k then Some c else row_get k rest
  end.


(** What may follow a value inside a JSON text: the end of the text, a
    comma or a closing bracket. *)
Definition delimited (rest : string) : Prop :=
  match rest with
  | EmptyString => True
  | String c _ => c = ","%char ∨ c = "]"%char ∨ c = "}"%char
  end.

(** The first character of the text of a value: not a blank and not a
    closing bracket. *)
Definition value_head (s : string) : Prop :=
  match s with
  | EmptyString => False
  | String c _ => Json.is_ws c = false ∧ c ≠ "]"%char ∧ c ≠ "}"%char
  end.


Fixpoint items_fuel (l : list json) : nat :=
  match l with
  | [] => O
  | x :: rest => (S (jfuel x) + items_fuel rest)%nat
  end.

Fixpoint members_fuel (d : pydict) : nat :=
  match d with
  | [] => O
  | kv :: rest => (S (jfuel kv.2) + members_fuel rest)%nat
  end.


(** Induction over nested values: the elements of a list and the values
    of a dict come with the induction hypothesis. *)

Section JsonInduction.
Variable P : json → Prop.
Hypothesis Hnull : P JNull.
Hypothesis Hbool : ∀ b, P (JBool b).
Hypothesis Hint : ∀ n, P (JInt n).
Hypothesis Hstr : ∀ s, P (JStr s).
Hypothesis Hlist : ∀ l, Forall P l → P (JList l).
Hypothesis Hdict : ∀ d, Forall (fun kv => P kv.2) d → P (JDict d).

Fixpoint json_nested_ind (v : json) : P v :=
match v with
| JNull => Hnull
| JBool b => Hbool b
| JInt n => Hint n
| JStr s => Hstr s
| JList l =>
    Hlist l ((fix go (l : list json) : Forall P l :=
                match l with
                | [] => List.Forall_nil P
                | x :: rest => @List.Forall_cons _ P x rest (json_nested_ind x) (go rest)
                end) l)
| JDict d =>
    Hdict d ((fix go (d : pydict) : Forall (fun kv => P kv.2) d :=
                match d with
                | [] => List.Forall_nil (fun kv => P kv.2)
                | kv :: rest =>
                    @List.Forall_cons _ (fun kv => P kv.2) kv rest
                      (json_nested_ind kv.2) (go rest)
                end) d)
end.
End JsonInduction.

(** The decoder reads the text of [x] back, whatever delimiter follows. *)
Definition decodes (x : json) : Prop :=
  wf_json x → ∀ f rest, (jfuel x ≤ f)%nat → delimited rest →
  Json.parse_value f (Json.dumps x +:+ rest) = Some (x, rest).

(** The fuel [x] needs is within the length of its text. *)
Definition fuel_bounded (x : json) : Prop := (jfuel x ≤ String.length (Json.dumps x))%nat.


(** A record with a nested field. *)
Definition nested_value : json :=
  JDict [("tags", JList [JStr "a"; JInt (-3); JNull]); ("ok", JBool true)].

Definition rec_nested : pydict := [("id", JInt 1); ("meta", nested_value)].


(** ** [scheduler.py]: loading the sources and running a job

    The decoded content of [api_config.json] is given as the keyword
    arguments of each entry, that is, entries whose keys are parameters
    of [ApiConfig.__init__] with values of the annotated types. *)

(** The list comprehension that builds an [ApiConfig] from every entry:
    the first constructor that raises ends it. *)
Fixpoint construct_all (configs : list ApiArgs) : result (list ApiConfig) :=
  match configs with
  | [] => Ok []
  | a :: rest =>
      api ← ApiConfig_init a;
      apis ← construct_all rest;
      Ok (api :: apis)
  end.

Definition rick_and_morty_query : string :=
  "query {
                        characters(page: 1, filter: { name: "
  +:+ String Json.dquote ("rick" +:+ String Json.dquote (" }) {
                            info {
                            count
                            }
                            results {
                            name
                            status
                            species
                            }
                        }
                        }")).

(** The sources built in when no configuration file exists. *)
Definition default_configs : list ApiArgs :=
  [ mkApiArgs "https://jsonplaceholder.typicode.com/posts" "REST" None (Some "posts")
              None None None 3 30;
    mkApiArgs "https://api.openbrewerydb.org/v1/breweries" "REST" None (Some "breweries")
              None None None 3 30;
    mkApiArgs "https://rickandmortyapi.com/graphql" "GraphQL" (Some rick_and_morty_query)
              (Some "rick_and_morty_characters") None None None 3 30;
    mkApiArgs "https://countries.trevorblades.com/graphql" "GraphQL"
              (Some "query { countries { name capital currency } }") (Some "countries")
              None None None 3 30 ].

(** [load_api_configs]: [file] is [None] when [api_config.json] does not
    exist, [Some (Raise e)] when reading or decoding it fails, and
    [Some (Ok configs)] otherwise.  Any exception gives the empty list. *)
Definition load_api_configs (file : option (result (list ApiArgs))) : list ApiConfig :=
  let loaded :=
    match file with
    | Some content => configs ← content; construct_all configs
    | None => construct_all default_configs
    end in
  match loaded with
  | Ok apis => apis
  | Raise _ => []
  end.

(** [run_data_processing_job]: nothing runs without sources; an
    exception of the run is logged and dropped. *)
Definition run_data_processing_job (env : Env) (file : option (result (list ApiArgs)))
    (w : World) : World :=
  match load_api_configs file with
  | [] => w
  | apis => (process_apis env apis w).2
  end.

(** Characters of a string. *)
Definition chars (s : string) : list ascii := list_ascii_of_string s.



(** The three conditions [ApiConfig.__init__] checks. *)
Definition valid_args (a : ApiArgs) : Prop :=
  a_url a ≠ EmptyString
  ∧ (a_api_type a = "REST"
     ∨ (a_api_type a = "GraphQL" ∧ ∃ c q, a_query a = Some (String c q))).


(** A source described by its URL alone. *)
Definition args_breweries : ApiArgs :=
  mkApiArgs "https://api.openbrewerydb.org/v1/breweries" "REST" None None None None None 3 30.

Definition api_breweries : ApiConfig :=
  {| url := "https://api.openbrewerydb.org/v1/breweries"; type := "REST"; query := None;
     params := []; headers := []; label := "api.openbrewerydb.org";
     table_name := "api_openbrewerydb_org"; retry_attempts := 3; timeout := 30 |}.

(** The request a validated source leads to. *)
Definition request_of (api : ApiConfig) : event := Request (method_of api) (url api).

(** A source whose type was changed after construction. *)
Definition src_soap : ApiConfig :=
  {| url := "https://legacy.example/soap"; type := "SOAP"; query := None;
     params := []; headers := []; label := "legacy"; table_name := "legacy";
     retry_attempts := 3; timeout := 30 |}.

(** A peer that answers 200 with two records to every request. *)
Definition env_two_records : Env :=
  quiet_env (fun _ _ => Reply 200 (Ok (JList [JDict (rec_id 1); JDict (rec_id 2)]))).

(** A peer that answers 200 with a body that is not JSON. *)
Definition env_bad_body : Env := quiet_env (fun _ _ => Reply 200 (Raise ClientError)).


(** Whether some record holds a list or a dict under [k]. *)
Definition column_complex (data : list pydict) (k : string) : bool :=
  existsb (fun r => match dict_get k r with
                    | Some v => is_composite v
                    | None => false
                    end) data.

(** A database with a table of another source. *)
Definition db_with_other : Db :=
  {| tables := {[ "countries" := {| tcolumns := ["name"];
                                    trows := [[("name", Val (JStr "X"))]] |} ]};
     ops := 0;
     writes := [] |}.

(** Two records: one with a list under [tags], one with a string there
    and no [note]. *)
Definition rec_tagged : pydict := [("id", JInt 1); ("tags", JList [JStr "a"]); ("note", JNull)].
Definition rec_untagged : pydict := [("id", JInt 2); ("tags", JStr "none")].


(** Records that lack [tags], and hold [None] there. *)
Definition rec_bare : pydict := [("id", JInt 3)].
Definition rec_null_tags : pydict := [("id", JInt 4); ("tags", JNull)].


(** Object payloads of a REST source. *)
Definition object_with_results : pydict :=
  [("count", JInt 1); ("results", JList [JDict (rec_id 1)]); ("items", JList [])].
Definition object_with_items : pydict :=
  [("results", JStr "n/a"); ("items", JList [JDict (rec_id 1)])].
Definition object_with_data : pydict :=
  [("items", JNull); ("data", JList [JDict (rec_id 1)])].
Definition object_alone : pydict := [("id", JInt 1); ("data", JStr "x")].

(** GraphQL payloads: a collection under a key of its own, and a
    [characters] entry without results beside a [countries] list. *)
Definition envelope_launches : pydict := [("launches", JList [JDict (rec_id 1)])].
Definition envelope_null_characters : pydict :=
  [("characters", JNull); ("countries", JList [JDict [("name", JStr "X")]])].

(** ** [main.py]: the [/process] endpoint *)




(** * Properties *)

(** ** Construction of [ApiConfig] *)

Lemma str_eqb_eq (a b : string) : Py.str_eqb a b = true ↔ a = b.
Proof. apply String.eqb_eq. Qed.

Lemma str_eqb_neq (a b : string) : Py.str_eqb a b = false ↔ a ≠ b.
Proof. apply String.eqb_neq. Qed.

Lemma str_eqb_refl (a : string) : Py.str_eqb a a = true.
Proof. apply String.eqb_refl. Qed.

(** A constructed [ApiConfig] carries the arguments it was built from,
    and its [type] is one of the two accepted strings. *)
Lemma ApiConfig_init_Ok (a : ApiArgs) (api : ApiConfig) :
  ApiConfig_init a = Ok api →
  url api = a_url a ∧ a_url a ≠ EmptyString ∧
  type api = a_api_type a ∧ (type api = "REST" ∨ type api = "GraphQL") ∧
  retry_attempts api = a_retry_attempts a.
Proof.
  unfold ApiConfig_init.
  destruct (Py.not_str (a_url a)) eqn:Hu; [discriminate|].
  destruct (Py.str_eqb (a_api_type a) "REST") eqn:Hr;
    destruct (Py.str_eqb (a_api_type a) "GraphQL") eqn:Hg; simpl;
    try discriminate;
    try (destruct (Py.not_opt_str (a_query a)); try discriminate);
    intros [= <-]; simpl;
    (split; [reflexivity|]);
    (split; [intros E; rewrite E in Hu; discriminate|]);
    (split; [reflexivity|]);
    (split; [|reflexivity]);
    first [ left; by apply str_eqb_eq | right; by apply str_eqb_eq ].
Qed.

(** C5. Constructing an [ApiConfig] raises [ValueError] instead of
    yielding a value when the URL is the empty string, when [api_type]
    is a string other than ["REST"] and ["GraphQL"], and when [api_type]
    is ["GraphQL"] and the query is absent or empty. *)
Theorem ApiConfig_init_rejects (a : ApiArgs) :
  a_url a = EmptyString
  ∨ (a_api_type a ≠ "REST" ∧ a_api_type a ≠ "GraphQL")
  ∨ (a_api_type a = "GraphQL" ∧ (a_query a = None ∨ a_query a = Some EmptyString)) →
  ∃ msg, ApiConfig_init a = Raise (ValueError msg).
Proof.
  intros H. unfold ApiConfig_init.
  destruct (Py.not_str (a_url a)) eqn:Hu; [eauto|].
  destruct H as [H | [[Hr Hg] | [Hg Hq]]].
  - rewrite H in Hu. discriminate.
  - apply str_eqb_neq in Hr, Hg. rewrite Hr, Hg. simpl. eauto.
  - rewrite Hg. simpl.
    destruct Hq as [-> | ->]; simpl; eauto.
Qed.

Lemma ApiConfig_init_rejects_witness :
  (∃ msg, ApiConfig_init args_empty_url = Raise (ValueError msg))
  ∧ (∃ msg, ApiConfig_init args_bad_kind = Raise (ValueError msg))
  ∧ (∃ msg, ApiConfig_init args_graphql_no_query = Raise (ValueError msg))
  ∧ (∃ msg, ApiConfig_init args_graphql_empty_query = Raise (ValueError msg)).
Proof.
  split; [|split; [|split]].
  - apply (ApiConfig_init_rejects args_empty_url). left. reflexivity.
  - apply (ApiConfig_init_rejects args_bad_kind). right. left.
    split; discriminate.
  - apply (ApiConfig_init_rejects args_graphql_no_query). right. right.
    split; [reflexivity | left; reflexivity].
  - apply (ApiConfig_init_rejects args_graphql_empty_query). right. right.
    split; [reflexivity | right; reflexivity].
Defined.

(** ** The fetch stage *)

Lemma attempts_app (u : string) (l1 l2 : list event) :
  attempts u (l1 ++ l2) = (attempts u l1 + attempts u l2)%nat.
Proof. unfold attempts. by rewrite filter_app, length_app. Qed.

Lemma attempts_request (u m : string) : attempts u [Request m u] = 1%nat.
Proof. unfold attempts. rewrite filter_cons. simpl. by rewrite str_eqb_refl. Qed.

(** One exchange sends one request and never yields the fall-through
    value. *)
Lemma exchange_spec (env : Env) (m : string) (api : ApiConfig) (log : list event) :
  ∃ r, exchange env m api log = (r, log ++ [Request m (url api)]) ∧ r ≠ Ok None.
Proof.
  unfold exchange.
  destruct (http env (url api) (attempts (url api) log)) as [e | status [data | e]];
    [eexists; split; [reflexivity | discriminate] | |].
  - destruct (negb (status =? 200)); eexists; (split; [reflexivity | discriminate]).
  - destruct (negb (status =? 200)); eexists; (split; [reflexivity | discriminate]).
Qed.

Lemma do_fetch_dispatch (env : Env) (api : ApiConfig) (log : list event) :
  type api = "REST" ∨ type api = "GraphQL" →
  _do_fetch env api log = exchange env (method_of api) api log.
Proof.
  unfold _do_fetch, method_of. intros [-> | ->]; reflexivity.
Qed.

(** The body of [fetch_data] never raises, so the retry wrapper returns
    after the first call: one request, no pause. *)
Lemma fetch_data_unfold (env : Env) (api : ApiConfig) (log : list event) :
  fetch_data env api log =
  match _do_fetch env api log with
  | (Ok r, log') => (Ok r, log')
  | (Raise _, log') => (Ok (Some (api, JNull)), log')
  end.
Proof.
  unfold fetch_data, on_exception. simpl. unfold fetch_data_body.
  destruct (_do_fetch env api log) as [[r | e] log']; reflexivity.
Qed.

Lemma fetch_data_pair (env : Env) (api : ApiConfig) (log : list event) :
  type api = "REST" ∨ type api = "GraphQL" →
  ∃ payload,
    fetch_data env api log = (Ok (Some (api, payload)), log ++ [Request (method_of api) (url api)]).
Proof.
  intros Hty. rewrite fetch_data_unfold, (do_fetch_dispatch _ _ _ Hty).
  unfold exchange.
  destruct (http env (url api) (attempts (url api) log)) as [e | status [data | e]];
    try destruct (negb (status =? 200)); eauto.
Qed.

(** C10. For an [ApiConfig] that passed the validation of its
    constructor, the dispatch of [_do_fetch] takes the REST or the
    GraphQL branch, never falls off the end of the function (which would
    return [None] instead of a pair), and [fetch_data] yields a pair of
    the source and a payload. *)
Theorem validated_fetch_yields_pair (a : ApiArgs) (api : ApiConfig) (env : Env)
    (log : list event) :
  ApiConfig_init a = Ok api →
  (_do_fetch env api log = exchange env "GET" api log
   ∨ _do_fetch env api log = exchange env "POST" api log)
  ∧ (_do_fetch env api log).1 ≠ Ok None
  ∧ ∃ payload log', fetch_data env api log = (Ok (Some (api, payload)), log').
Proof.
  intros Hinit.
  destruct (ApiConfig_init_Ok _ _ Hinit) as (_ & _ & _ & Hty & _).
  split; [|split].
  - unfold _do_fetch. destruct Hty as [-> | ->]; simpl; auto.
  - rewrite (do_fetch_dispatch _ _ _ Hty).
    destruct (exchange_spec env (method_of api) api log) as (r & -> & Hr). exact Hr.
  - destruct (fetch_data_pair env api log Hty) as [payload Hp]. eauto.
Qed.

Lemma validated_fetch_yields_pair_witness :
  ApiConfig_init args_posts = Ok api_posts
  ∧ (_do_fetch env_down api_posts [] = exchange env_down "GET" api_posts []
     ∨ _do_fetch env_down api_posts [] = exchange env_down "POST" api_posts [])
  ∧ (_do_fetch env_down api_posts []).1 ≠ Ok None
  ∧ ∃ payload log', fetch_data env_down api_posts [] = (Ok (Some (api_posts, payload)), log').
Proof.
  split; [reflexivity|].
  apply (validated_fetch_yields_pair args_posts api_posts env_down []).
  reflexivity.
Defined.

(** C3. What [fetch_data] does for a source whose transport fails on
    every attempt with a connection error or a timeout: it sends exactly
    one request, whatever [retry_attempts] is, pauses for no backoff, and
    returns the absence outcome without raising.  The exception is caught
    inside the wrapped function, so the retry wrapper never sees it. *)
Theorem failing_transport_single_attempt (env : Env) (api : ApiConfig) (log : list event) :
  type api = "REST" ∨ type api = "GraphQL" →
  (∀ n, http env (url api) n = NoReply ClientError
        ∨ http env (url api) n = NoReply TimeoutError) →
  fetch_data env api log = (Ok (Some (api, JNull)), log ++ [Request (method_of api) (url api)])
  ∧ attempts (url api) (fetch_data env api log).2 = S (attempts (url api) log).
Proof.
  intros Hty Hdown.
  assert (fetch_data env api log
          = (Ok (Some (api, JNull)), log ++ [Request (method_of api) (url api)])) as E.
  { rewrite fetch_data_unfold, (do_fetch_dispatch _ _ _ Hty). unfold exchange.
    destruct (Hdown (attempts (url api) log)) as [-> | ->]; reflexivity. }
  split; [exact E|].
  rewrite E. simpl. rewrite attempts_app, attempts_request. lia.
Qed.

Lemma failing_transport_single_attempt_witness :
  retry_attempts src_down = 3
  ∧ fetch_data env_down src_down []
    = (Ok (Some (src_down, JNull)), [Request "GET" "https://down.example/api"])
  ∧ attempts (url src_down) (fetch_data env_down src_down []).2 = 1%nat.
Proof.
  split; [reflexivity|].
  apply (failing_transport_single_attempt env_down src_down []).
  - left. reflexivity.
  - intros n. left. reflexivity.
Defined.

(** C4, as stated, fails: with a budget of three attempts and a peer
    that answers 500 to every request, no second request is sent. *)
Lemma non_2xx_retry_counterexample :
  retry_attempts src_500 = 3
  ∧ (∀ n, ∃ body, http env_500 (url src_500) n = Reply 500 body)
  ∧ ¬ (1 < attempts (url src_500) (fetch_data env_500 src_500 []).2)%nat.
Proof.
  split; [reflexivity|]. split; [intros n; eexists; reflexivity|].
  vm_compute. lia.
Qed.

(** C4, amended. A response whose status is not 200 ends the fetch at
    once: that one request is the only one sent, no pause or further
    attempt follows whatever [retry_attempts] is, and the fetch returns
    the absence outcome. *)
Theorem non_200_ends_fetch (env : Env) (api : ApiConfig) (log : list event)
    (status : Z) (body : result json) :
  type api = "REST" ∨ type api = "GraphQL" →
  http env (url api) (attempts (url api) log) = Reply status body →
  status ≠ 200 →
  fetch_data env api log = (Ok (Some (api, JNull)), log ++ [Request (method_of api) (url api)])
  ∧ attempts (url api) (fetch_data env api log).2 = S (attempts (url api) log).
Proof.
  intros Hty Hreply Hst.
  assert (fetch_data env api log
          = (Ok (Some (api, JNull)), log ++ [Request (method_of api) (url api)])) as E.
  { rewrite fetch_data_unfold, (do_fetch_dispatch _ _ _ Hty). unfold exchange.
    rewrite Hreply.
    destruct (status =? 200) eqn:E200; [apply Z.eqb_eq in E200; contradiction|].
    reflexivity. }
  split; [exact E|].
  rewrite E. simpl. rewrite attempts_app, attempts_request. lia.
Qed.

Lemma non_200_ends_fetch_witness :
  fetch_data env_500 src_500 []
  = (Ok (Some (src_500, JNull)), [Request "GET" "https://broken.example/api"])
  ∧ attempts (url src_500) (fetch_data env_500 src_500 []).2 = 1%nat.
Proof.
  apply (non_200_ends_fetch env_500 src_500 [] 500 (Ok (JStr "Internal Server Error"))).
  - left. reflexivity.
  - reflexivity.
  - lia.
Defined.

(** ** [transform_data] *)

(** C6. For a GraphQL source, the envelope is unwrapped: a collection
    listed directly under [data.countries] and a [results] list under
    [data.characters] both come out as the list of their records. *)
Theorem graphql_unwrapping (env : Env) (api : ApiConfig) :
  type api = "GraphQL" →
  transform_data env payload_countries api = [[("name", JStr "X")]]
  ∧ transform_data env payload_characters api = [[("name", JStr "rick")]].
Proof.
  intros Hty. unfold transform_data, transform_steps. rewrite Hty. split; reflexivity.
Qed.

Lemma graphql_unwrapping_witness :
  transform_data env_down payload_countries src_countries = [[("name", JStr "X")]]
  ∧ transform_data env_down payload_characters src_countries = [[("name", JStr "rick")]].
Proof.
  apply (graphql_unwrapping env_down src_countries). reflexivity.
Defined.

(** ** The store *)

Lemma chunk_size_pos : (0 < chunk_size)%nat.
Proof. unfold chunk_size. lia. Qed.

Lemma subset_of_refl (cols : list string) : subset_of cols cols = true.
Proof.
  unfold subset_of. apply forallb_forall. intros x Hx.
  apply existsb_exists. exists x. split; [exact Hx | apply String.eqb_refl].
Qed.

Lemma to_sql_fault (env : Env) (name : string) (fr : DataFrame) (mode : if_exists_mode) (d : Db) :
  db_fault env (ops d) = true →
  to_sql env name fr mode d =
  (Raise DatabaseError,
   {| tables := tables d; ops := S (ops d);
      writes := writes d ++ [mkWrite name mode (length (rows fr)) false] |}).
Proof. intros H. unfold to_sql. by rewrite H. Qed.

Lemma to_sql_first (env : Env) (name : string) (fr : DataFrame) (mode : if_exists_mode) (d : Db) :
  mode = Replace ∨ tables d !! name = None →
  db_fault env (ops d) = false →
  to_sql env name fr mode d =
  (Ok tt,
   {| tables := <[name := {| tcolumns := columns fr; trows := sql_rows fr |}]> (tables d);
      ops := S (ops d);
      writes := writes d ++ [mkWrite name mode (length (rows fr)) true] |}).
Proof.
  intros Hm H. unfold to_sql. rewrite H.
  destruct Hm as [-> | ->]; [reflexivity | destruct mode; reflexivity].
Qed.

Lemma to_sql_append (env : Env) (name : string) (fr : DataFrame) (d : Db) (t : Table) :
  tables d !! name = Some t →
  tcolumns t = columns fr →
  db_fault env (ops d) = false →
  to_sql env name fr Append d =
  (Ok tt,
   {| tables := <[name := {| tcolumns := columns fr; trows := trows t ++ sql_rows fr |}]>
                  (tables d);
      ops := S (ops d);
      writes := writes d ++ [mkWrite name Append (length (rows fr)) true] |}).
Proof.
  intros Ht Hc H. unfold to_sql. rewrite H, Ht, Hc, subset_of_refl. reflexivity.
Qed.

Lemma write_chunks_cons (env : Env) (name : string) (m : if_exists_mode) (df : DataFrame)
    (i : nat) (rest : list nat) (d : Db) :
  write_chunks env name m df (i :: rest) d =
  match to_sql env name (iloc df i (i + chunk_size)) (if Nat.ltb 0 i then Append else m) d with
  | (Ok _, d') => write_chunks env name m df rest d'
  | (Raise e, d') => (Raise e, d')
  end.
Proof. reflexivity. Qed.

Lemma write_chunks_app (env : Env) (name : string) (m : if_exists_mode) (df : DataFrame)
    (l1 l2 : list nat) (d : Db) :
  write_chunks env name m df (l1 ++ l2) d =
  match write_chunks env name m df l1 d with
  | (Ok _, d') => write_chunks env name m df l2 d'
  | (Raise e, d') => (Raise e, d')
  end.
Proof.
  revert d. induction l1 as [|i l1 IH]; intros d; [reflexivity|].
  rewrite <- app_comm_cons, !write_chunks_cons.
  destruct (to_sql env name _ _ d) as [[[]|e] d']; [apply IH | reflexivity].
Qed.

Lemma chunk_starts_S (a n : nat) :
  chunk_starts a (S n) = (a * chunk_size)%nat :: chunk_starts (S a) n.
Proof. reflexivity. Qed.

Lemma chunk_starts_app (a n k : nat) :
  chunk_starts a (n + k) = chunk_starts a n ++ chunk_starts (a + n) k.
Proof. unfold chunk_starts. by rewrite seq_app, fmap_app. Qed.

Lemma iloc_chunk (df : DataFrame) (j : nat) :
  iloc df (j * chunk_size) (j * chunk_size + chunk_size)
  = {| columns := columns df; rows := chunk_rows df j |}.
Proof.
  unfold iloc, chunk_rows. f_equal. f_equal. lia.
Qed.

Lemma chunk_mode_later (m : if_exists_mode) (a : nat) :
  (0 < a)%nat → (if Nat.ltb 0 (a * chunk_size) then Append else m) = Append.
Proof.
  intros Ha. assert (Nat.ltb 0 (a * chunk_size) = true) as ->; [|reflexivity].
  apply Nat.ltb_lt. pose proof chunk_size_pos. nia.
Qed.

Opaque chunk_size.

Section Chunks.
Context (env : Env) (name : string) (m : if_exists_mode) (df : DataFrame).

(** The chunks after the first are appended to the table that the
  first one left. *)
Lemma write_chunks_append (n a : nat) (d : Db) (t : Table) :
(0 < a)%nat →
tables d !! name = Some t →
tcolumns t = columns df →
(∀ j, (j < n)%nat → db_fault env (ops d + j) = false) →
write_chunks env name m df (chunk_starts a n) d =
(Ok tt,
 {| tables :=
      <[name := {| tcolumns := columns df;
                   trows := trows t
                            ++ ((fun row => zip (columns df) row)
                                  <$> take (n * chunk_size)
                                           (drop (a * chunk_size) (rows df))) |}]>
        (tables d);
    ops := ops d + n;
    writes := writes d ++ (chunk_event name m df true <$> seq a n) |}).
Proof.
revert a d t. induction n as [|n IH]; intros a d t Ha Ht Hc Hf.
- simpl. f_equal. destruct d as [tb o w]. simpl in *.
  rewrite Nat.add_0_r, !app_nil_r. f_equal.
  symmetry. apply insert_id. rewrite Ht. f_equal.
  destruct t as [tc tr]. simpl in *. by subst.
- rewrite chunk_starts_S, write_chunks_cons, iloc_chunk, (chunk_mode_later _ _ Ha).
  rewrite (to_sql_append env name {| columns := columns df; rows := chunk_rows df a |} d t Ht Hc).
  2:{ rewrite <- (Nat.add_0_r (ops d)). apply Hf. lia. }
  erewrite IH; [| lia | simpl; apply lookup_insert_eq | reflexivity | ].
  2:{ intros j Hj. simpl. replace (S (ops d + j))%nat with (ops d + S j)%nat by lia.
      apply Hf. lia. }
  simpl. f_equal. f_equal.
  + rewrite insert_insert_eq. do 2 f_equal.
    rewrite <- app_assoc. f_equal. unfold sql_rows. simpl.
    rewrite <- fmap_app. f_equal. unfold chunk_rows.
    rewrite <- (take_take_drop _ chunk_size (n * chunk_size)).
    rewrite drop_drop. by rewrite (Nat.add_comm chunk_size).
  + lia.
  + rewrite <- app_assoc. f_equal. simpl. f_equal.
    unfold chunk_event. destruct a; [lia | reflexivity].
Qed.

(** The first chunk creates or replaces the table; the others follow. *)
Lemma write_chunks_from_zero (n : nat) (d : Db) :
m = Replace ∨ tables d !! name = None →
(∀ j, (j < S n)%nat → db_fault env (ops d + j) = false) →
write_chunks env name m df (chunk_starts 0 (S n)) d =
(Ok tt,
 {| tables := <[name := {| tcolumns := columns df; trows := rows_upto df (S n) |}]>
                (tables d);
    ops := ops d + S n;
    writes := writes d ++ (chunk_event name m df true <$> seq 0 (S n)) |}).
Proof.
intros Hm Hf.
rewrite chunk_starts_S, write_chunks_cons, iloc_chunk.
change (Nat.ltb 0 (0 * chunk_size)) with false. cbv iota.
rewrite (to_sql_first _ _ _ _ _ Hm).
2:{ rewrite <- (Nat.add_0_r (ops d)). apply Hf. lia. }
erewrite (write_chunks_append n 1); [| lia | apply lookup_insert_eq | reflexivity |].
2:{ intros j Hj. simpl. replace (S (ops d + j))%nat with (ops d + S j)%nat by lia.
    apply Hf. lia. }
simpl. f_equal. f_equal.
- rewrite insert_insert_eq. do 2 f_equal.
  unfold rows_upto, sql_rows, chunk_rows. simpl.
  rewrite <- fmap_app. f_equal.
  rewrite <- (take_take_drop _ chunk_size (n * chunk_size)).
  by rewrite Nat.add_0_r.
- lia.
- by rewrite <- app_assoc.
Qed.

(** A fault at chunk [k] stops the loop: the chunks before it stay
  written, the failing call is the last one. *)
Lemma write_chunks_fault (k n : nat) (d : Db) :
m = Replace ∨ tables d !! name = None →
(∀ j, (j < k)%nat → db_fault env (ops d + j) = false) →
db_fault env (ops d + k) = true →
write_chunks env name m df (chunk_starts 0 (k + S n)) d =
(Raise DatabaseError,
 {| tables := match k with
              | O => tables d
              | S _ => <[name := {| tcolumns := columns df; trows := rows_upto df k |}]>
                         (tables d)
              end;
    ops := ops d + S k;
    writes := writes d ++ (chunk_event name m df true <$> seq 0 k)
                       ++ [chunk_event name m df false k] |}).
Proof.
intros Hm Hok Hfault.
rewrite chunk_starts_app, write_chunks_app.
destruct k as [|k].
- simpl chunk_starts at 1. simpl write_chunks at 1. cbv iota beta.
  rewrite Nat.add_0_l, chunk_starts_S, write_chunks_cons, iloc_chunk.
  change (Nat.ltb 0 (0 * chunk_size)) with false. cbv iota.
  rewrite to_sql_fault by (by rewrite Nat.add_0_r in Hfault).
  simpl. do 2 f_equal. lia.
- rewrite (write_chunks_from_zero k d Hm Hok).
  rewrite Nat.add_0_l, chunk_starts_S, write_chunks_cons, iloc_chunk.
  rewrite chunk_mode_later by lia.
  rewrite to_sql_fault by exact Hfault.
  simpl. f_equal. f_equal; [lia|].
  by rewrite <- app_assoc.
Qed.
End Chunks.

Transparent chunk_size.

(** *** Chunk arithmetic *)

Lemma chunk_count_div (total : nat) :
  let q := (total / chunk_size)%nat in
  let r := (total mod chunk_size)%nat in
  total = (chunk_size * q + r)%nat ∧ (r < chunk_size)%nat
  ∧ chunk_count total = (if (r =? 0)%nat then q else S q).
Proof.
  intros q r. pose proof chunk_size_pos as Hc.
  assert (total = (chunk_size * q + r)%nat) as E by (apply Nat.div_mod_eq).
  assert (r < chunk_size)%nat as Hr by (apply Nat.mod_upper_bound; lia).
  split; [exact E|]. split; [exact Hr|].
  unfold chunk_count. destruct (Nat.eqb_spec r 0) as [H0|H0].
  - symmetry. apply (Nat.div_unique _ _ _ (chunk_size - 1)); lia.
  - symmetry. apply (Nat.div_unique _ _ _ (r - 1)); lia.
Qed.

Lemma chunk_count_pos (total : nat) : (0 < total)%nat → ∃ n, chunk_count total = S n.
Proof.
  intros Ht. destruct (chunk_count_div total) as (E & Hr & ->).
  destruct (Nat.eqb_spec (total mod chunk_size) 0) as [H0|H0]; [|eauto].
  destruct (total / chunk_size)%nat as [|q] eqn:Hq; [lia | eauto].
Qed.

Lemma chunk_count_covers (total : nat) : (total ≤ chunk_count total * chunk_size)%nat.
Proof.
  destruct (chunk_count_div total) as (E & Hr & ->).
  destruct (Nat.eqb_spec (total mod chunk_size) 0); lia.
Qed.

Lemma chunk_count_gt (total k : nat) :
  (k * chunk_size < total)%nat → ∃ n, chunk_count total = (k + S n)%nat.
Proof.
  intros Hk. destruct (chunk_count_div total) as (E & Hr & HN).
  exists (chunk_count total - S k)%nat.
  enough (k < chunk_count total)%nat by lia.
  rewrite HN. destruct (Nat.eqb_spec (total mod chunk_size) 0); nia.
Qed.

Lemma range0_chunks (total : nat) :
  range0 total chunk_size = chunk_starts 0 (chunk_count total).
Proof. reflexivity. Qed.

Lemma chunk_rows_length (df : DataFrame) (j : nat) :
  length (chunk_rows df j) = (chunk_size `min` (length (rows df) - j * chunk_size))%nat.
Proof. unfold chunk_rows. by rewrite length_take, length_drop. Qed.

Lemma rows_upto_all (df : DataFrame) (k : nat) :
  (length (rows df) ≤ k * chunk_size)%nat → rows_upto df k = sql_rows df.
Proof. intros H. unfold rows_upto, sql_rows. by rewrite take_ge. Qed.

(** The writes of a successful store are the ones the specification
    lists: full chunks, then the remainder. *)
Lemma chunk_events_expected (name : string) (m : if_exists_mode) (df : DataFrame) :
  chunk_event name m df true <$> seq 0 (chunk_count (length (rows df)))
  = expected_writes name m (length (rows df)).
Proof.
  set (total := length (rows df)).
  destruct (chunk_count_div total) as (E & Hr & HN).
  set (q := (total / chunk_size)%nat) in *. set (r := (total mod chunk_size)%nat) in *.
  unfold expected_writes, chunk_sizes. fold q r.
  apply list_eq. intros i.
  rewrite list_lookup_fmap, list_lookup_imap.
  destruct (decide (i < q)%nat) as [Hi|Hi].
  - rewrite lookup_seq_lt by (rewrite HN; destruct (r =? 0)%nat; lia).
    rewrite lookup_app_l by (rewrite length_replicate; lia).
    rewrite (lookup_replicate_2 q chunk_size i Hi). simpl.
    unfold chunk_event. rewrite chunk_rows_length. fold total.
    do 2 f_equal. nia.
  - destruct (Nat.eqb_spec r 0) as [H0|H0].
    + rewrite lookup_seq_ge by lia.
      rewrite app_nil_r, lookup_ge_None_2 by (rewrite length_replicate; lia). reflexivity.
    + destruct (decide (i = q)) as [->|Hne].
      * rewrite lookup_seq_lt by lia.
        rewrite lookup_app_r by (rewrite length_replicate; lia).
        rewrite length_replicate, Nat.sub_diag. simpl.
        unfold chunk_event. rewrite chunk_rows_length. fold total.
        do 2 f_equal. nia.
      * rewrite lookup_seq_ge by lia.
        rewrite lookup_ge_None_2; [reflexivity|].
        rewrite length_app, length_replicate. simpl. lia.
Qed.

(** *** [store_data] *)

Lemma frame_of_rows_length (data : list pydict) :
  length (rows (frame_of data)) = length data.
Proof. unfold frame_of, convert_complex, DataFrame_of. simpl. by rewrite !length_fmap. Qed.

Lemma frame_of_columns (data : list pydict) : columns (frame_of data) = union_keys data.
Proof. reflexivity. Qed.

Lemma first_mode_first (name : string) (d : Db) (o : nat) (w : list WriteEvent) :
  first_mode name d = Replace
  ∨ tables {| tables := tables d; ops := o; writes := w |} !! name = None.
Proof.
  unfold first_mode. simpl. case_bool_decide as H; [by left | right].
  destruct (tables d !! name) eqn:E; [|reflexivity].
  exfalso. apply H. eauto.
Qed.

Lemma store_data_unfold (env : Env) (data : list pydict) (api : ApiConfig) (d : Db) :
  data ≠ [] →
  db_fault env (ops d) = false →
  store_data env data api d =
  match write_chunks env (table_name api) (first_mode (table_name api) d) (frame_of data)
                     (chunk_starts 0 (chunk_count (length data)))
                     {| tables := tables d; ops := S (ops d); writes := writes d |} with
  | (Ok _, d2) => (true, d2)
  | (Raise _, d2) => (false, d2)
  end.
Proof.
  intros Hne Hf. destruct data as [|r data]; [done|].
  unfold store_data, table_exists. rewrite Hf.
  fold (frame_of (r :: data)). rewrite frame_of_rows_length, range0_chunks.
  unfold first_mode. reflexivity.
Qed.

Opaque chunk_size.

(** Without a database fault the store writes every chunk. *)
Lemma store_data_ok (env : Env) (data : list pydict) (api : ApiConfig) (d : Db) :
  data ≠ [] →
  (∀ j, (j < S (chunk_count (length data)))%nat → db_fault env (ops d + j) = false) →
  store_data env data api d =
  (true,
   {| tables := <[table_name api := {| tcolumns := union_keys data;
                                       trows := sql_rows (frame_of data) |}]> (tables d);
      ops := ops d + S (chunk_count (length data));
      writes := writes d
                ++ expected_writes (table_name api) (first_mode (table_name api) d)
                                   (length data) |}).
Proof.
  intros Hne Hf.
  rewrite store_data_unfold; [| exact Hne | rewrite <- (Nat.add_0_r (ops d)); apply Hf; lia].
  destruct (chunk_count_pos (length data)) as [n Hn].
  { destruct data; [done | simpl; lia]. }
  rewrite Hn in *.
  rewrite write_chunks_from_zero; [| apply first_mode_first |].
  2:{ intros j Hj. simpl. replace (S (ops d + j))%nat with (ops d + S j)%nat by lia.
      apply Hf. lia. }
  simpl. f_equal. f_equal.
  - do 2 f_equal.
    apply rows_upto_all. rewrite frame_of_rows_length, <- Hn. apply chunk_count_covers.
  - lia.
  - f_equal. rewrite <- (frame_of_rows_length data), <- chunk_events_expected.
    by rewrite frame_of_rows_length, Hn.
Qed.

(** A fault while chunk [k] is written. *)
Lemma store_data_fault (env : Env) (data : list pydict) (api : ApiConfig) (d : Db) (k : nat) :
  (k * chunk_size < length data)%nat →
  db_fault env (ops d) = false →
  (∀ j, (j < k)%nat → db_fault env (S (ops d) + j) = false) →
  db_fault env (S (ops d) + k) = true →
  store_data env data api d =
  (false,
   {| tables := match k with
                | O => tables d
                | S _ => <[table_name api := {| tcolumns := union_keys data;
                                                trows := rows_upto (frame_of data) k |}]>
                           (tables d)
                end;
      ops := S (ops d) + S k;
      writes := writes d
                ++ (chunk_event (table_name api) (first_mode (table_name api) d)
                                (frame_of data) true <$> seq 0 k)
                ++ [chunk_event (table_name api) (first_mode (table_name api) d)
                                (frame_of data) false k] |}).
Proof.
  intros Hk H0 Hok Hfault.
  assert (data ≠ []) as Hne by (intros ->; simpl in Hk; lia).
  rewrite store_data_unfold by done.
  destruct (chunk_count_gt _ _ Hk) as [n ->].
  rewrite write_chunks_fault; [reflexivity | apply first_mode_first | exact Hok | exact Hfault].
Qed.

Transparent chunk_size.




(** ** The orchestrator *)

Lemma gather_pairs (env : Env) (apis : list ApiConfig) (log : list event) :
  Forall (fun api => type api = "REST" ∨ type api = "GraphQL") apis →
  ∃ pairs, (gather env apis log).1 = (fun p => Ok (Some p)) <$> pairs ∧ pairs.*1 = apis.
Proof.
  intros Hv. revert log. induction Hv as [|api apis Hty _ IH]; intros log.
  - exists []. split; reflexivity.
  - simpl. destruct (fetch_data_pair env api log Hty) as [payload ->].
    destruct (IH (log ++ [Request (method_of api) (url api)])) as (pairs & Hg & Hp).
    destruct (gather env apis _) as [rs log2]. simpl in Hg. subst rs.
    exists ((api, payload) :: pairs). split; [reflexivity | rewrite fmap_cons; simpl; by f_equal].
Qed.

Lemma fetched_of_pairs (pairs : list (ApiConfig * json)) :
  omap (fun r : result (option (ApiConfig * json)) =>
          match r with Ok (Some p) => Some p | _ => None end)
       ((fun p => Ok (Some p)) <$> pairs) = pairs.
Proof. induction pairs as [|p pairs IH]; [reflexivity | simpl; by f_equal]. Qed.

Lemma submit_cons_pair (api : ApiConfig) (raw : json)
    (rest : list (result (option (ApiConfig * json)))) :
  submit (Ok (Some (api, raw)) :: rest)
  = (let '(r, units) := submit rest in
     if truthy raw then (r, (api, raw) :: units) else (r, units)).
Proof. reflexivity. Qed.

Lemma submit_pairs (pairs : list (ApiConfig * json)) :
  submit ((fun p => Ok (Some p)) <$> pairs)
  = (Ok tt, filter (fun u => truthy u.2 = true) pairs).
Proof.
  induction pairs as [|[api raw] pairs IH]; [reflexivity|].
  rewrite fmap_cons, submit_cons_pair, IH, filter_cons. simpl.
  destruct (truthy raw); [rewrite decide_True by done | rewrite decide_False by done];
    reflexivity.
Qed.

Lemma run_units_cons (env : Env) (api : ApiConfig) (raw : json)
    (units : list (ApiConfig * json)) (d : Db) :
  run_units env ((api, raw) :: units) d
  = (let '(row_count, d1) := process_data_in_thread_pool env api raw d in
     let '(counts, d2) := run_units env units d1 in
     ((label api, row_count) :: counts, d2)).
Proof. reflexivity. Qed.

Lemma run_units_labels (env : Env) (units : list (ApiConfig * json)) (d : Db) :
  (run_units env units d).1.*1 = unit_label <$> units.
Proof.
  revert d. induction units as [|[api raw] units IH]; intros d; [reflexivity|].
  rewrite run_units_cons. destruct (process_data_in_thread_pool env api raw d) as [n d1].
  specialize (IH d1). destruct (run_units env units d1) as [counts d2].
  rewrite !fmap_cons. simpl in *. by f_equal.
Qed.

Lemma run_units_lookup (env : Env) (units : list (ApiConfig * json)) (d : Db)
    (j : nat) (api : ApiConfig) (raw : json) :
  units !! j = Some (api, raw) →
  (run_units env units d).1 !! j
  = Some (label api, (process_data_in_thread_pool env api raw (db_before env units d j)).1).
Proof.
  revert d j. induction units as [|[api0 raw0] units IH]; intros d j Hj; [done|].
  destruct j as [|j].
  - simpl in Hj. injection Hj as -> ->. unfold db_before.
    rewrite run_units_cons. simpl.
    destruct (process_data_in_thread_pool env api raw d) as [n d1].
    destruct (run_units env units d1) as [counts d2]. reflexivity.
  - simpl in Hj. unfold db_before. rewrite firstn_cons, !run_units_cons.
    destruct (process_data_in_thread_pool env api0 raw0 d) as [n d1].
    specialize (IH d1 j Hj). unfold db_before in IH.
    destruct (run_units env units d1) as [counts d2].
    destruct (run_units env (take j units) d1) as [counts' d2'].
    simpl in *. exact IH.
Qed.

Lemma collect_acc_dom (counts : list (string * nat)) (acc : gmap string nat) :
  dom (fold_left (fun results lc => <[lc.1 := lc.2]> results) counts acc)
  = dom acc ∪ list_to_set counts.*1.
Proof.
  revert acc. induction counts as [|[l n] counts IH]; intros acc; simpl.
  - set_solver.
  - rewrite IH, dom_insert_L. set_solver.
Qed.

Lemma collect_dom (counts : list (string * nat)) :
  dom (collect counts) = list_to_set counts.*1.
Proof. unfold collect. rewrite collect_acc_dom. set_solver. Qed.

Lemma collect_acc_notin (counts : list (string * nat)) (acc : gmap string nat) (l : string) :
  l ∉ counts.*1 →
  fold_left (fun results lc => <[lc.1 := lc.2]> results) counts acc !! l = acc !! l.
Proof.
  revert acc. induction counts as [|[l' n] counts IH]; intros acc Hl; [reflexivity|].
  simpl in *. rewrite IH by set_solver. apply lookup_insert_ne. set_solver.
Qed.

(** The entry of a label is the count of the last unit that carries it. *)
Lemma collect_lookup (counts : list (string * nat)) (j : nat) (l : string) (n : nat) :
  counts !! j = Some (l, n) →
  l ∉ (drop (S j) counts).*1 →
  collect counts !! l = Some n.
Proof.
  intros Hj Hl. rewrite <- (take_drop_middle counts j (l, n) Hj).
  unfold collect. rewrite fold_left_app. simpl.
  rewrite collect_acc_notin by exact Hl. apply lookup_insert_eq.
Qed.


Lemma process_apis_validated (env : Env) (apis : list ApiConfig) (w : World) :
  db_init_fails env = false →
  Forall (fun api => type api = "REST" ∨ type api = "GraphQL") apis →
  (fetched env apis (net w)).*1 = apis
  ∧ units_of env apis (net w)
    = filter (fun u => truthy u.2 = true) (fetched env apis (net w))
  ∧ ∃ w', process_apis env apis w
          = (Ok (collect (run_units env (units_of env apis (net w)) (db w)).1), w').
Proof.
  intros Hinit Hv.
  destruct (gather_pairs env apis (net w) Hv) as (pairs & Hg & Hp).
  unfold fetched, units_of, process_apis. rewrite Hinit.
  destruct (gather env apis (net w)) as [rs log]. simpl in *. subst rs.
  rewrite fetched_of_pairs, submit_pairs. simpl.
  split; [exact Hp|]. split; [reflexivity|].
  destruct (run_units env _ (db w)) as [counts d']. eauto.
Qed.

Lemma unit_count (env : Env) (api : ApiConfig) (raw : json) (d : Db) :
  (process_data_in_thread_pool env api raw d).1
  = match transform_data env raw api with
    | [] => O
    | records => if (store_data env records api d).1 then length records else O
    end.
Proof.
  unfold process_data_in_thread_pool.
  destruct (transform_data env raw api) as [|r rs]; [reflexivity|].
  destruct (store_data env (r :: rs) api d) as [[] d']; reflexivity.
Qed.

(** C1, as stated, fails: in the three-source scenario the source whose
    fetch fails is not in the report at all; only the two sources that
    delivered a payload have an entry. *)
Lemma report_misses_failed_fetch_counterexample :
  src_down ∈ three_sources
  ∧ ∃ report w',
      process_apis env_three three_sources world0 = (Ok report, w')
      ∧ report !! label src_down = None
      ∧ report !! label src_odd = Some 0%nat
      ∧ report !! label src_items = Some 2%nat.
Proof.
  split; [set_solver|].
  eexists _, _. split; [vm_compute; reflexivity|].
  repeat split; vm_compute; reflexivity.
Qed.

(** C1, amended. For a run over validated sources whose database can be
    initialised, every source gets a fetch outcome, the units handed to
    the pool are the outcomes with a truthy payload, and the report has
    an entry exactly for the labels of those units.  The entry of a unit
    (the last one, when a label is shared) is 0 when normalization yields
    no record or the store fails, and the number of records when the
    store succeeds.  A source whose fetch fails has no unit and so no
    entry of its own. *)
Theorem report_covers_fetched_sources (env : Env) (apis : list ApiConfig) (w : World) :
  db_init_fails env = false →
  Forall (fun api => type api = "REST" ∨ type api = "GraphQL") apis →
  (fetched env apis (net w)).*1 = apis
  ∧ units_of env apis (net w)
    = filter (fun u => truthy u.2 = true) (fetched env apis (net w))
  ∧ ∃ report w',
      process_apis env apis w = (Ok report, w')
      ∧ dom report = list_to_set (unit_label <$> units_of env apis (net w))
      ∧ ∀ j api raw,
          units_of env apis (net w) !! j = Some (api, raw) →
          label api ∉ unit_label <$> drop (S j) (units_of env apis (net w)) →
          report !! label api
          = Some (match transform_data env raw api with
                  | [] => O
                  | records =>
                      if (store_data env records api
                            (db_before env (units_of env apis (net w)) (db w) j)).1
                      then length records else O
                  end).
Proof.
  intros Hinit Hv.
  destruct (process_apis_validated env apis w Hinit Hv) as (Hp & Hu & w' & Hrun).
  split; [exact Hp|]. split; [exact Hu|].
  eexists _, w'. split; [exact Hrun|]. split.
  - by rewrite collect_dom, run_units_labels.
  - intros j api raw Hj Hlast.
    rewrite <- unit_count.
    apply (collect_lookup _ j).
    + by apply run_units_lookup.
    + rewrite fmap_drop, run_units_labels, <- fmap_drop. exact Hlast.
Qed.

Lemma report_covers_fetched_sources_witness :
  (fetched env_three three_sources (net world0)).*1 = three_sources
  ∧ units_of env_three three_sources (net world0)
    = filter (fun u => truthy u.2 = true) (fetched env_three three_sources (net world0))
  ∧ ∃ report w',
      process_apis env_three three_sources world0 = (Ok report, w')
      ∧ dom report = list_to_set (unit_label <$> units_of env_three three_sources (net world0))
      ∧ ∀ j api raw,
          units_of env_three three_sources (net world0) !! j = Some (api, raw) →
          label api ∉ unit_label <$> drop (S j) (units_of env_three three_sources (net world0)) →
          report !! label api
          = Some (match transform_data env_three raw api with
                  | [] => O
                  | records =>
                      if (store_data env_three records api
                            (db_before env_three (units_of env_three three_sources (net world0))
                                       (db world0) j)).1
                      then length records else O
                  end).
Proof.
  apply (report_covers_fetched_sources env_three three_sources world0).
  - reflexivity.
  - repeat constructor; left; reflexivity.
Defined.



(** ** Normalization of flat payloads *)

Lemma existsb_str_eqb (k : string) (l : list string) :
  existsb (Py.str_eqb k) l = true ↔ k ∈ l.
Proof.
  rewrite existsb_exists. split.
  - intros (x & Hx & E). apply String.eqb_eq in E. subst. by apply list_elem_of_In.
  - intros H. exists k. split; [by apply list_elem_of_In | apply String.eqb_refl].
Qed.

Lemma add_key_in (cols : list string) (k : string) : k ∈ cols → add_key cols k = cols.
Proof. intros H. unfold add_key. apply existsb_str_eqb in H. by rewrite H. Qed.

Lemma add_key_notin (cols : list string) (k : string) : k ∉ cols → add_key cols k = cols ++ [k].
Proof.
  intros H. unfold add_key. destruct (existsb (Py.str_eqb k) cols) eqn:E; [|reflexivity].
  apply existsb_str_eqb in E. contradiction.
Qed.

Lemma add_keys_present (ks acc : list string) :
  (∀ k, k ∈ ks → k ∈ acc) → fold_left add_key ks acc = acc.
Proof.
  induction ks as [|k ks IH]; intros H; [reflexivity|].
  simpl. rewrite add_key_in by (apply H; set_solver). apply IH. set_solver.
Qed.

Lemma add_keys_fresh (ks acc : list string) :
  NoDup (acc ++ ks) → fold_left add_key ks acc = acc ++ ks.
Proof.
  revert acc. induction ks as [|k ks IH]; intros acc H; [by rewrite app_nil_r|].
  simpl. apply NoDup_app in H as (Ha & Hd & Hk).
  apply NoDup_cons in Hk as (Hk & Hks).
  rewrite add_key_notin by (intros Hin; apply (Hd k Hin); set_solver).
  rewrite IH; [by rewrite <- app_assoc|].
  rewrite <- app_assoc. simpl. apply NoDup_app. split; [exact Ha|]. split.
  - intros x Hx. by apply Hd.
  - by apply NoDup_cons.
Qed.

Lemma union_keys_acc (data : list pydict) (acc : list string) :
  Forall (fun r => ∀ k, k ∈ r.*1 → k ∈ acc) data →
  fold_left (fun cols r => fold_left add_key (r.*1) cols) data acc = acc.
Proof.
  induction 1 as [|r data Hr _ IH]; [reflexivity|].
  simpl. rewrite add_keys_present by exact Hr. exact IH.
Qed.

(** Records that all carry the keys of the first one give its keys as
    the columns. *)
Lemma union_keys_uniform (r0 : pydict) (data : list pydict) :
  NoDup r0.*1 →
  Forall (fun r => ∀ k, k ∈ r.*1 → k ∈ r0.*1) data →
  union_keys (r0 :: data) = r0.*1.
Proof.
  intros Hnd Hall. unfold union_keys. simpl.
  rewrite (add_keys_fresh _ []) by exact Hnd. simpl.
  by apply union_keys_acc.
Qed.

Lemma dict_get_None (k : string) (r : pydict) : dict_get k r = None ↔ k ∉ r.*1.
Proof.
  induction r as [|[k' v] r IH]; simpl; [set_solver|].
  destruct (Py.str_eqb k' k) eqn:E.
  - apply String.eqb_eq in E. subst. split; [discriminate | set_solver].
  - apply String.eqb_neq in E. rewrite IH. set_solver.
Qed.

Lemma dict_get_cons (k k' : string) (v : json) (rest : pydict) :
  dict_get k ((k', v) :: rest) = if Py.str_eqb k' k then Some v else dict_get k rest.
Proof. reflexivity. Qed.

Lemma dict_get_tabulate (k : string) (f : string → json) (cols : list string) :
  dict_get k ((fun c => (c, f c)) <$> cols) = if decide (k ∈ cols) then Some (f k) else None.
Proof.
  induction cols as [|c cols IH]; [reflexivity|].
  rewrite fmap_cons, dict_get_cons.
  destruct (Py.str_eqb c k) eqn:E.
  - apply String.eqb_eq in E. subst. rewrite decide_True by set_solver. reflexivity.
  - apply String.eqb_neq in E. rewrite IH.
    destruct (decide (k ∈ cols)); [rewrite decide_True | rewrite decide_False]; set_solver.
Qed.

Lemma zip_tabulate (f : string → json) (cols : list string) :
  zip cols (f <$> cols) = (fun c => (c, f c)) <$> cols.
Proof. induction cols as [|c cols IH]; [reflexivity | simpl; by f_equal]. Qed.

(** The record [to_dict] builds from the row of [r]. *)
Lemma row_record (r : pydict) (cols : list string) :
  zip cols (notnull_or_None <$> (cell_of r <$> cols))
  = (fun c => (c, notnull_or_None (cell_of r c))) <$> cols.
Proof. rewrite <- list_fmap_compose. apply (zip_tabulate (notnull_or_None ∘ cell_of r)). Qed.

Lemma row_record_get (r : pydict) (cols : list string) (k : string) :
  (∀ c, c ∈ cols ↔ c ∈ r.*1) →
  dict_get k ((fun c => (c, notnull_or_None (cell_of r c))) <$> cols) = dict_get k r.
Proof.
  intros Hk. rewrite (dict_get_tabulate k (fun c => notnull_or_None (cell_of r c))).
  destruct (decide (k ∈ cols)) as [Hin|Hin].
  - unfold cell_of. destruct (dict_get k r) eqn:E; [reflexivity|].
    apply dict_get_None in E. apply Hk in Hin. contradiction.
  - symmetry. apply dict_get_None. by rewrite <- Hk.
Qed.

Lemma row_record_same_order (r : pydict) :
  NoDup r.*1 →
  (fun c => (c, notnull_or_None (cell_of r c))) <$> r.*1 = r.
Proof.
  induction r as [|[k v] r IH]; intros Hnd; [reflexivity|].
  rewrite fmap_cons in Hnd. simpl in Hnd. apply NoDup_cons in Hnd as (Hk & Hnd).
  rewrite !fmap_cons. simpl. f_equal.
  - unfold cell_of. simpl. by rewrite String.eqb_refl.
  - rewrite <- (IH Hnd) at 2. apply list_fmap_ext. intros i c Hc.
    f_equal. f_equal. unfold cell_of. simpl.
    assert (c ∈ r.*1) as Hin by (eapply list_elem_of_lookup_2; exact Hc).
    assert (Py.str_eqb k c = false) as ->; [|reflexivity].
    apply String.eqb_neq. intros ->. contradiction.
Qed.

Lemma filter_all {A} (P : A → Prop) `{∀ x, Decision (P x)} (l : list A) :
  Forall P l → filter P l = l.
Proof.
  induction 1 as [|x l Hx _ IH]; [reflexivity|].
  rewrite filter_cons, decide_True by exact Hx. by f_equal.
Qed.

Lemma filter_none {A} (P : A → Prop) `{∀ x, Decision (P x)} (l : list A) :
  Forall (fun x => ¬ P x) l → filter P l = [].
Proof.
  induction 1 as [|x l Hx _ IH]; [reflexivity|].
  by rewrite filter_cons, decide_False.
Qed.

(** Flattening leaves an object without nested objects as it is. *)
Lemma normalise_flat (r : pydict) :
  Forall (fun kv => is_composite kv.2 = false) r → normalise_json_ordered r = r.
Proof.
  intros Hflat. unfold normalise_json_ordered.
  rewrite (filter_none (fun kv : string * json => is_dict kv.2 = true)).
  2:{ eapply Forall_impl; [exact Hflat|]. intros [k v] Hv. simpl in *.
      unfold is_composite in Hv. destruct (is_dict v); [|discriminate].
      by rewrite orb_true_r in Hv. }
  rewrite (filter_all (fun kv : string * json => is_dict kv.2 = false)).
  2:{ eapply Forall_impl; [exact Hflat|]. intros [k v] Hv. simpl in *.
      unfold is_composite in Hv. by destruct (is_dict v); [rewrite orb_true_r in Hv|]. }
  reflexivity.
Qed.

Lemma mapM_as_dict (l : list pydict) : mapM as_dict (JDict <$> l) = Some l.
Proof.
  induction l as [|r l IH]; [reflexivity|].
  rewrite fmap_cons. simpl. rewrite IH. reflexivity.
Qed.

(** What [transform_data] returns on a list of flat objects, for a
    source that is not a GraphQL one. *)
Lemma transform_flat_list (env : Env) (api : ApiConfig) (l : list pydict) :
  type api = "REST" →
  l ≠ [] →
  Forall (fun r => Forall (fun kv => is_composite kv.2 = false) r) l →
  transform_data env (JList (JDict <$> l)) api = to_dict_records (DataFrame_of l).
Proof.
  intros Hty Hne Hflat. unfold transform_data, transform_steps.
  assert (truthy (JList (JDict <$> l)) = true) as -> by (by destruct l).
  rewrite Hty. simpl.
  unfold normalize_records. rewrite mapM_as_dict. do 3 f_equal.
  clear Hne. induction Hflat as [|r l Hr _ IH]; [reflexivity|].
  rewrite fmap_cons, (normalise_flat r Hr). by f_equal.
Qed.

Lemma plain_not_composite (v : json) : is_plain v = true → is_composite v = false.
Proof. by destruct v. Qed.

Lemma tabulate_keys (f : string → json) (cols : list string) :
  ((fun c => (c, f c)) <$> cols).*1 = cols.
Proof. induction cols as [|c cols IH]; [reflexivity | rewrite !fmap_cons; simpl; by f_equal]. Qed.

(** C9, as stated, fails: objects with different keys come back padded
    with nulls for the columns they lack, and a list that holds only an
    empty object yields no record. *)
Lemma mixed_keys_not_identity_counterexample :
  flat_record [("a", JStr "x")] ∧ flat_record [("b", JStr "y")]
  ∧ transform_data env_down payload_mixed_keys src_down
    = [[("a", JStr "x"); ("b", JNull)]; [("a", JNull); ("b", JStr "y")]]
  ∧ dict_get "b" [("a", JStr "x"); ("b", JNull)] ≠ dict_get "b" [("a", JStr "x")]
  ∧ flat_record []
  ∧ transform_data env_down payload_empty_object src_down = [].
Proof.
  assert (∀ k v, is_composite v = false → flat_record [(k, v)]) as Hone.
  { intros k v Hv. split; [apply NoDup_singleton | by apply Forall_singleton]. }
  split; [by apply Hone|]. split; [by apply Hone|].
  split; [reflexivity|]. split; [discriminate|].
  split; [split; constructor | reflexivity].
Qed.

(** C9, amended. For a payload that is a non-empty list of flat objects
    whose values are strings, ints or booleans and which all carry the
    same, non-empty set of keys, normalization for a REST source returns
    one record per object, in order, with the keys of the first object
    and, under every key, the value the object has: each record equals
    its object field for field.  When the objects also list their keys in
    the same order, the result is the input list itself. *)
Theorem uniform_flat_payload_identity (env : Env) (api : ApiConfig)
    (r0 : pydict) (rest : list pydict) :
  type api = "REST" →
  r0 ≠ [] →
  Forall (fun r => NoDup r.*1
                   ∧ Forall (fun kv => is_plain kv.2 = true) r
                   ∧ ∀ k, k ∈ r.*1 ↔ k ∈ r0.*1) (r0 :: rest) →
  Forall2 (fun r r' => r'.*1 = r0.*1 ∧ ∀ k, dict_get k r' = dict_get k r)
          (r0 :: rest) (transform_data env (JList (JDict <$> r0 :: rest)) api)
  ∧ (Forall (fun r => r.*1 = r0.*1) rest →
     transform_data env (JList (JDict <$> r0 :: rest)) api = r0 :: rest).
Proof.
  intros Hty Hne Hall.
  assert (transform_data env (JList (JDict <$> r0 :: rest)) api
          = (fun r => (fun c => (c, notnull_or_None (cell_of r c))) <$> r0.*1) <$> (r0 :: rest))
    as ->.
  { rewrite transform_flat_list; [| exact Hty | discriminate |].
    2:{ eapply Forall_impl; [exact Hall|]. intros r (_ & Hp & _).
        eapply Forall_impl; [exact Hp|]. intros kv. apply plain_not_composite. }
    unfold to_dict_records, DataFrame_of. cbn [columns rows].
    rewrite union_keys_uniform.
    - destruct (r0.*1) as [|c cols] eqn:E; [by destruct r0|].
      rewrite <- list_fmap_compose. apply list_fmap_ext. intros i r _.
      apply row_record.
    - by apply Forall_inv in Hall as (Hnd & _).
    - apply Forall_inv_tail in Hall. eapply Forall_impl; [exact Hall|].
      intros r (_ & _ & Hk) k. apply Hk. }
  split.
  - apply Forall2_fmap_r, Forall_Forall2_diag.
    eapply Forall_impl; [exact Hall|]. intros r (Hnd & _ & Hk).
    split; [apply (tabulate_keys (fun c => notnull_or_None (cell_of r c)))|].
    intros k. apply row_record_get. intros c. by rewrite Hk.
  - intros Horder.
    assert (Forall (fun r => NoDup r.*1 ∧ r.*1 = r0.*1) (r0 :: rest)) as Hsame.
    { apply Forall_cons. split.
      - by apply Forall_inv in Hall as (Hnd & _).
      - apply Forall_inv_tail in Hall.
        apply Forall_forall. intros r Hr.
        rewrite Forall_forall in Hall, Horder. split; [by apply Hall | by apply Horder]. }
    clear Hall Horder. induction Hsame as [|r l (Hnd & Hk) _ IH]; [reflexivity|].
    rewrite fmap_cons. f_equal; [|exact IH].
    rewrite <- Hk. by apply row_record_same_order.
Qed.

Lemma uniform_flat_payload_identity_witness :
  Forall2 (fun r r' => r'.*1 = (rec_id 1).*1 ∧ ∀ k, dict_get k r' = dict_get k r)
          [rec_id 1; rec_id 2]
          (transform_data env_down (JList (JDict <$> [rec_id 1; rec_id 2])) src_down)
  ∧ (Forall (fun r => r.*1 = (rec_id 1).*1) [rec_id 2] →
     transform_data env_down (JList (JDict <$> [rec_id 1; rec_id 2])) src_down
     = [rec_id 1; rec_id 2]).
Proof.
  apply (uniform_flat_payload_identity env_down src_down (rec_id 1) [rec_id 2]).
  - reflexivity.
  - discriminate.
  - assert (∀ n, NoDup (rec_id n).*1
                 ∧ Forall (fun kv => is_plain kv.2 = true) (rec_id n)
                 ∧ ∀ k, k ∈ (rec_id n).*1 ↔ k ∈ (rec_id 1).*1) as H.
    { intros n. split; [|split].
      - apply NoDup_cons. split; [set_solver | apply NoDup_singleton].
      - repeat constructor.
      - reflexivity. }
    constructor; [apply H | constructor; [apply H | constructor]].
Defined.

(** ** The JSON text of a value decodes to the value *)

Lemma append_cons (x : ascii) (a b : string) : String x a +:+ b = String x (a +:+ b).
Proof. reflexivity. Qed.

Lemma append_nil_l (b : string) : EmptyString +:+ b = b.
Proof. reflexivity. Qed.

Lemma append_assoc (a b c : string) : (a +:+ b) +:+ c = a +:+ (b +:+ c).
Proof. induction a as [|x a IH]; [reflexivity | by rewrite !append_cons, IH]. Qed.

Lemma append_nil_r (a : string) : a +:+ EmptyString = a.
Proof. induction a as [|x a IH]; [reflexivity | by rewrite append_cons, IH]. Qed.

Lemma length_append (a b : string) :
  String.length (a +:+ b) = (String.length a + String.length b)%nat.
Proof. induction a as [|x a IH]; [reflexivity | rewrite append_cons; simpl; by rewrite IH]. Qed.

Lemma dumps_list (l : list json) :
  Json.dumps (JList l) = String "[" (dumps_items l +:+ "]").
Proof.
  reflexivity.
Qed.

Lemma dumps_dict (d : pydict) :
  Json.dumps (JDict d) = String "{" (dumps_members d +:+ "}").
Proof.
  reflexivity.
Qed.

(** *** String literals *)

Lemma scan_escape_char (c : ascii) (tail : string) :
  Json.scan_string (Json.escape_char c +:+ tail) = Json.push c (Json.scan_string tail).
Proof.
  destruct c as [[] [] [] [] [] [] [] []]; reflexivity.
Qed.

Lemma scan_string_escape (s rest : string) :
  Json.scan_string (Json.escape_string s +:+ String Json.dquote rest) = Some (s, rest).
Proof.
  induction s as [|c s IH]; [reflexivity|].
  change (Json.escape_string (String c s))
    with (Json.escape_char c +:+ Json.escape_string s).
  rewrite append_assoc, scan_escape_char, IH. reflexivity.
Qed.

Lemma dumps_str_app (s rest : string) :
  Json.dumps_str s +:+ rest
  = String Json.dquote (Json.escape_string s +:+ String Json.dquote rest).
Proof. unfold Json.dumps_str. by rewrite append_cons, append_assoc, append_cons. Qed.

(** *** Integers *)

Lemma delimited_no_digit (rest : string) :
  delimited rest → Json.scan_digits rest = (Decimal.Nil, rest).
Proof. destruct rest as [|c rest]; [reflexivity|]. by intros [-> | [-> | ->]]. Qed.

Lemma delimited_no_float (rest : string) :
  delimited rest → Json.starts_float_part rest = false.
Proof. destruct rest as [|c rest]; [reflexivity|]. by intros [-> | [-> | ->]]. Qed.

Lemma delimited_skip_ws (rest : string) : delimited rest → Json.skip_ws rest = rest.
Proof. destruct rest as [|c rest]; [reflexivity|]. by intros [-> | [-> | ->]]. Qed.

Lemma scan_digits_print (u : Decimal.uint) (rest : string) :
  delimited rest →
  Json.scan_digits (Json.string_of_uint u +:+ rest) = (u, rest).
Proof.
  intros Hd. induction u as [|u IH|u IH|u IH|u IH|u IH|u IH|u IH|u IH|u IH|u IH];
    [by apply delimited_no_digit | ..];
    change (Json.scan_digits (Json.string_of_uint ?d +:+ rest))
      with (Json.scan_digits (Json.string_of_uint d +:+ rest));
    cbn [Json.string_of_uint]; rewrite append_cons; cbn [Json.scan_digits];
    cbv [Json.digit_cons nat_of_ascii]; simpl; by rewrite IH.
Qed.

Lemma to_int_normal (n : Z) : Decimal.norm (Z.to_int n) = Z.to_int n.
Proof. rewrite <- (DecimalZ.to_of (Z.to_int n)), DecimalZ.of_to. reflexivity. Qed.

Lemma to_int_pos (n : Z) (u : Decimal.uint) :
  Z.to_int n = Decimal.Pos u →
  u ≠ Decimal.Nil ∧ Decimal.unorm u = u ∧ Z.of_uint u = n.
Proof.
  intros H. pose proof (to_int_normal n) as Hn. rewrite H in Hn. simpl in Hn.
  injection Hn as Hn. split; [|split].
  - intros ->. discriminate Hn.
  - exact Hn.
  - rewrite <- (DecimalZ.of_to n), H. reflexivity.
Qed.

Lemma to_int_neg (n : Z) (u : Decimal.uint) :
  Z.to_int n = Decimal.Neg u →
  u ≠ Decimal.Nil ∧ Decimal.unorm u = u ∧ (- Z.of_uint u)%Z = n.
Proof.
  intros H. pose proof (to_int_normal n) as Hn. rewrite H in Hn. simpl in Hn.
  assert (Decimal.nzhead u = u ∧ u ≠ Decimal.Nil) as [Hz Hne].
  { destruct (Decimal.nzhead u) eqn:E; try discriminate Hn;
      injection Hn as <-; split; congruence. }
  split; [exact Hne|]. split.
  - unfold Decimal.unorm. rewrite Hz. by destruct u.
  - rewrite <- (DecimalZ.of_to n), H. reflexivity.
Qed.

Lemma scan_number_print (negative : bool) (u : Decimal.uint) (rest : string) :
  u ≠ Decimal.Nil → Decimal.unorm u = u → delimited rest →
  Json.scan_number negative (Json.string_of_uint u +:+ rest)
  = Some (JInt (if negative then - Z.of_uint u else Z.of_uint u)%Z, rest).
Proof.
  intros Hne Hn Hd. unfold Json.scan_number.
  rewrite (scan_digits_print u rest Hd).
  unfold Json.uint_normal. rewrite Hn.
  destruct (Decimal.uint_eq_dec u u) as [_|C]; [|contradiction].
  rewrite (delimited_no_float rest Hd). by destruct u.
Qed.

(** A text that starts with a digit is read as a number. *)
Lemma parse_value_digits (f : nat) (u : Decimal.uint) (rest : string) :
  u ≠ Decimal.Nil →
  Json.parse_value (S f) (Json.string_of_uint u +:+ rest)
  = Json.scan_number false (Json.string_of_uint u +:+ rest).
Proof. intros Hne. by destruct u. Qed.

Lemma parse_value_int (f : nat) (n : Z) (rest : string) :
  delimited rest →
  Json.parse_value (S f) (Json.dumps_int n +:+ rest) = Some (JInt n, rest).
Proof.
  intros Hd. unfold Json.dumps_int. destruct (Z.to_int n) as [u|u] eqn:E.
  - destruct (to_int_pos n u E) as (Hne & Hn & <-).
    rewrite parse_value_digits by exact Hne.
    by rewrite scan_number_print.
  - destruct (to_int_neg n u E) as (Hne & Hn & <-).
    rewrite append_cons.
    change (Json.parse_value (S f) (String "-" (Json.string_of_uint u +:+ rest)))
      with (Json.scan_number true (Json.string_of_uint u +:+ rest)).
    by rewrite scan_number_print.
Qed.

(** *** The head of a text *)

Lemma value_head_skip_ws (s : string) : value_head s → Json.skip_ws s = s.
Proof. destruct s as [|c s]; [done|]. intros (Hw & _). simpl. by rewrite Hw. Qed.

Lemma value_head_uint (u : Decimal.uint) (rest : string) :
  u ≠ Decimal.Nil → value_head (Json.string_of_uint u +:+ rest).
Proof. intros Hne. destruct u; [done | ..]; (split; [reflexivity | split; discriminate]). Qed.

Lemma value_head_dumps (v : json) (rest : string) : value_head (Json.dumps v +:+ rest).
Proof.
  destruct v as [|[]|n|s|l|d]; try (split; [reflexivity | split; discriminate]).
  unfold Json.dumps, Json.dumps_int. destruct (Z.to_int n) as [u|u] eqn:E.
  - apply value_head_uint. by destruct (to_int_pos n u E).
  - split; [reflexivity | split; discriminate].
Qed.

Lemma value_head_str (s rest : string) : value_head (Json.dumps_str s +:+ rest).
Proof. split; [reflexivity | split; discriminate]. Qed.

Lemma wf_json_list (l : list json) : wf_json (JList l) ↔ Forall wf_json l.
Proof.
  induction l as [|x l IH]; [by split|].
  rewrite Forall_cons. rewrite <- IH. reflexivity.
Qed.

Lemma wf_json_dict (d : pydict) :
  wf_json (JDict d) ↔ NoDup d.*1 ∧ Forall (fun kv => wf_json kv.2) d.
Proof.
  change (wf_json (JDict d)) with
    (NoDup d.*1 ∧ (fix all (d : pydict) : Prop :=
                     match d with
                     | [] => True
                     | kv :: rest => wf_json kv.2 ∧ all rest
                     end) d).
  apply and_iff_compat_l.
  induction d as [|kv d IH]; [by split|].
  rewrite Forall_cons. rewrite <- IH. reflexivity.
Qed.

Lemma jfuel_list (l : list json) : jfuel (JList l) = S (items_fuel l).
Proof. reflexivity. Qed.

Lemma jfuel_dict (d : pydict) : jfuel (JDict d) = S (members_fuel d).
Proof. reflexivity. Qed.

Lemma jfuel_pos (v : json) : (1 ≤ jfuel v)%nat.
Proof. destruct v; simpl; lia. Qed.

(** *** One step of the decoder *)

Lemma parse_value_str (f : nat) (s rest : string) :
  Json.parse_value (S f) (Json.dumps_str s +:+ rest) = Some (JStr s, rest).
Proof.
  rewrite dumps_str_app.
  change (Json.parse_value (S f) (String Json.dquote ?t))
    with (match Json.scan_string t with
          | Some (str, r) => Some (JStr str, r)
          | None => None
          end).
  by rewrite scan_string_escape.
Qed.

Lemma parse_value_open_list (f : nat) (s : string) :
  value_head s →
  Json.parse_value (S f) (String "[" s)
  = match Json.parse_items f s with
    | Some (l, r) => Some (JList l, r)
    | None => None
    end.
Proof.
  destruct s as [|c t]; [done|]. intros (Hw & Hc & _).
  destruct c as [[] [] [] [] [] [] [] []];
    try reflexivity; try discriminate Hw; contradiction.
Qed.

Lemma parse_value_open_dict (f : nat) (s : string) :
  value_head s →
  Json.parse_value (S f) (String "{" s)
  = match Json.parse_members f s with
    | Some (d, r) => Some (JDict (Json.dict_of_pairs d), r)
    | None => None
    end.
Proof.
  destruct s as [|c t]; [done|]. intros (Hw & _ & Hc).
  destruct c as [[] [] [] [] [] [] [] []];
    try reflexivity; try discriminate Hw; contradiction.
Qed.

Lemma parse_items_last (f : nat) (s : string) (v : json) (rest : string) :
  Json.parse_value f s = Some (v, String "]" rest) →
  Json.parse_items (S f) s = Some ([v], rest).
Proof. intros H. simpl. rewrite H. reflexivity. Qed.

Lemma parse_items_more (f : nat) (s t : string) (v : json) (vs : list json) (rest : string) :
  Json.parse_value f s = Some (v, String "," (String " " t)) →
  value_head t →
  Json.parse_items f t = Some (vs, rest) →
  Json.parse_items (S f) s = Some (v :: vs, rest).
Proof.
  intros H Hh Ht. simpl. rewrite H.
  change (Json.skip_ws (String "," (String " " t))) with (String "," (String " " t)).
  cbv iota beta.
  change (Json.skip_ws (String " " t)) with (Json.skip_ws t).
  rewrite (value_head_skip_ws t Hh), Ht. reflexivity.
Qed.

Lemma parse_members_step (f : nat) (k t : string) :
  Json.parse_members (S f)
    (Json.dumps_str k +:+ String ":" (String " " t))
  = match Json.parse_value f (Json.skip_ws t) with
    | None => None
    | Some (v, r2) =>
        match Json.skip_ws r2 with
        | String "}" r3 => Some ([(k, v)], r3)
        | String "," r3 =>
            match Json.parse_members f (Json.skip_ws r3) with
            | Some (kvs, r4) => Some ((k, v) :: kvs, r4)
            | None => None
            end
        | _ => None
        end
    end.
Proof.
  rewrite dumps_str_app.
  change (Json.parse_members (S f) (String Json.dquote ?u))
    with (match Json.scan_string u with
          | None => None
          | Some (k, r) =>
              match Json.skip_ws r with
              | String ":" r1 =>
                  match Json.parse_value f (Json.skip_ws r1) with
                  | None => None
                  | Some (v, r2) =>
                      match Json.skip_ws r2 with
                      | String "}" r3 => Some ([(k, v)], r3)
                      | String "," r3 =>
                          match Json.parse_members f (Json.skip_ws r3) with
                          | Some (kvs, r4) => Some ((k, v) :: kvs, r4)
                          | None => None
                          end
                      | _ => None
                      end
                  end
              | _ => None
              end
          end).
  rewrite scan_string_escape. reflexivity.
Qed.

(** *** Lists and dicts *)

Lemma dumps_items_cons (x y : json) (l : list json) :
  dumps_items (x :: y :: l) = Json.dumps x +:+ ", " +:+ dumps_items (y :: l).
Proof. reflexivity. Qed.

Lemma dumps_members_cons (kv kv' : string * json) (d : pydict) :
  dumps_members (kv :: kv' :: d)
  = Json.dumps_str kv.1 +:+ ": " +:+ Json.dumps kv.2 +:+ ", " +:+ dumps_members (kv' :: d).
Proof. reflexivity. Qed.

Lemma items_head (l : list json) (rest : string) :
  l ≠ [] → value_head (dumps_items l +:+ rest).
Proof.
  destruct l as [|x [|y l]]; [done | intros _; apply value_head_dumps |].
  intros _. rewrite dumps_items_cons, append_assoc. apply value_head_dumps.
Qed.

Lemma members_head (d : pydict) (rest : string) :
  d ≠ [] → value_head (dumps_members d +:+ rest).
Proof.
  destruct d as [|kv [|kv' d]]; [done | |]; intros _.
  - simpl dumps_members. rewrite append_assoc. apply value_head_str.
  - rewrite dumps_members_cons, append_assoc. apply value_head_str.
Qed.

Lemma parse_items_print (l : list json) :
  l ≠ [] → Forall decodes l → Forall wf_json l →
  ∀ f rest, (items_fuel l ≤ f)%nat →
    Json.parse_items f (dumps_items l +:+ String "]" rest) = Some (l, rest).
Proof.
  intros Hne Hdec Hwf. induction l as [|x l IH]; [done|]. clear Hne.
  apply Forall_cons in Hdec as (Hx & Hdec). apply Forall_cons in Hwf as (Hwx & Hwf).
  intros f rest Hf. destruct f as [|f]; [simpl in Hf; lia|].
  simpl in Hf. destruct l as [|y l].
  - apply parse_items_last. apply Hx; [exact Hwx | lia | right; by left].
  - rewrite dumps_items_cons, !append_assoc.
    change (", " +:+ ?t) with (String "," (String " " t)).
    apply (parse_items_more f _ (dumps_items (y :: l) +:+ String "]" rest)).
    + apply Hx; [exact Hwx | lia | by left].
    + by apply items_head.
    + apply IH; [done | exact Hdec | exact Hwf | simpl in *; lia].
Qed.

Lemma parse_members_print (d : pydict) :
  d ≠ [] → Forall (fun kv => decodes kv.2) d → Forall (fun kv => wf_json kv.2) d →
  ∀ f rest, (members_fuel d ≤ f)%nat →
    Json.parse_members f (dumps_members d +:+ String "}" rest) = Some (d, rest).
Proof.
  intros Hne Hdec Hwf. induction d as [|[k v] d IH]; [done|]. clear Hne.
  apply Forall_cons in Hdec as (Hx & Hdec). apply Forall_cons in Hwf as (Hwx & Hwf).
  simpl in Hx, Hwx.
  intros f rest Hf. destruct f as [|f]; [simpl in Hf; lia|].
  simpl in Hf. destruct d as [|kv' d].
  - simpl dumps_members. rewrite !append_assoc.
    change (": " +:+ ?t) with (String ":" (String " " t)).
    rewrite parse_members_step, (value_head_skip_ws _ (value_head_dumps v _)).
    rewrite Hx; [reflexivity | exact Hwx | lia | right; by right].
  - rewrite dumps_members_cons. simpl fst. simpl snd. rewrite !append_assoc.
    change (": " +:+ ?t) with (String ":" (String " " t)).
    change (", " +:+ ?t) with (String "," (String " " t)).
    rewrite parse_members_step, (value_head_skip_ws _ (value_head_dumps v _)).
    rewrite Hx; [| exact Hwx | lia | by left].
    change (Json.skip_ws (String "," ?t)) with (String "," t). cbv iota beta.
    change (Json.skip_ws (String " " ?t)) with (Json.skip_ws t).
    rewrite (value_head_skip_ws _ (members_head (kv' :: d) _ ltac:(done))).
    rewrite IH; [reflexivity | done | exact Hdec | exact Hwf | simpl in *; lia].
Qed.

Lemma dict_set_fresh (k : string) (v : json) (acc : pydict) :
  k ∉ acc.*1 → dict_set k v acc = acc ++ [(k, v)].
Proof.
  induction acc as [|[k' v'] acc IH]; intros Hk; [reflexivity|].
  simpl. rewrite fmap_cons in Hk. simpl in Hk.
  assert (Py.str_eqb k' k = false) as -> by (apply String.eqb_neq; set_solver).
  rewrite IH by set_solver. reflexivity.
Qed.

Lemma dict_of_pairs_acc (d acc : pydict) :
  NoDup (acc.*1 ++ d.*1) →
  fold_left (fun a kv => dict_set kv.1 kv.2 a) d acc = acc ++ d.
Proof.
  revert acc. induction d as [|[k v] d IH]; intros acc Hnd; [by rewrite app_nil_r|].
  simpl. rewrite fmap_cons in Hnd. simpl in Hnd.
  apply NoDup_app in Hnd as (Ha & Hdisj & Hd). apply NoDup_cons in Hd as (Hk & Hd).
  rewrite dict_set_fresh by (intros Hin; apply (Hdisj k Hin); set_solver).
  rewrite IH; [by rewrite <- app_assoc|].
  rewrite fmap_app. simpl. rewrite <- app_assoc. simpl.
  apply NoDup_app. split; [exact Ha|]. split.
  - intros x Hx. by apply Hdisj.
  - by apply NoDup_cons.
Qed.

Lemma dict_of_pairs_id (d : pydict) : NoDup d.*1 → Json.dict_of_pairs d = d.
Proof. intros H. unfold Json.dict_of_pairs. by rewrite dict_of_pairs_acc. Qed.

(** The decoder reads back the text of a well-formed value, whatever
    delimiter follows it. *)
Lemma parse_value_print (v : json) : decodes v.
Proof.
  induction v as [| b | n | s | l IH | d IH] using json_nested_ind;
    intros Hwf f rest Hf Hd;
    (destruct f as [|f]; [pose proof (jfuel_pos ltac:(eassumption || exact JNull)); simpl in Hf; lia|]).
  - reflexivity.
  - by destruct b.
  - by apply parse_value_int.
  - apply parse_value_str.
  - rewrite dumps_list, append_cons, append_assoc, append_cons, append_nil_l.
    rewrite jfuel_list in Hf. apply wf_json_list in Hwf.
    destruct l as [|x l]; [reflexivity|].
    rewrite parse_value_open_list by (by apply items_head).
    rewrite (parse_items_print (x :: l)); [reflexivity | done | exact IH | exact Hwf | lia].
  - rewrite dumps_dict, append_cons, append_assoc, append_cons, append_nil_l.
    rewrite jfuel_dict in Hf. apply wf_json_dict in Hwf as (Hnd & Hwf).
    destruct d as [|kv d]; [reflexivity|].
    rewrite parse_value_open_dict by (by apply members_head).
    rewrite (parse_members_print (kv :: d)); [| done | exact IH | exact Hwf | lia].
    by rewrite dict_of_pairs_id.
Qed.

(** *** Enough fuel *)

Lemma length_dumps_int (n : Z) : (1 ≤ String.length (Json.dumps_int n))%nat.
Proof.
  unfold Json.dumps_int. destruct (Z.to_int n) as [u|u] eqn:E; [|simpl; lia].
  destruct (to_int_pos n u E) as (Hne & _). destruct u; [done | simpl; lia ..].
Qed.

Lemma items_fuel_bound (l : list json) :
  Forall fuel_bounded l → (items_fuel l ≤ String.length (dumps_items l) + 1)%nat.
Proof.
  induction 1 as [|x l Hx _ IH]; [simpl; lia|]. unfold fuel_bounded in Hx.
  destruct l as [|y l]; [simpl in *; lia|].
  rewrite dumps_items_cons, !length_append.
  change (items_fuel (x :: y :: l)) with (S (jfuel x) + items_fuel (y :: l))%nat.
  change (String.length ", ") with 2%nat. lia.
Qed.

Lemma members_fuel_bound (d : pydict) :
  Forall (fun kv => fuel_bounded kv.2) d →
  (members_fuel d ≤ String.length (dumps_members d) + 1)%nat.
Proof.
  induction 1 as [|[k v] d Hx _ IH]; [simpl; lia|]. unfold fuel_bounded in Hx. simpl in Hx.
  destruct d as [|kv' d].
  - simpl members_fuel. simpl dumps_members. rewrite !length_append. lia.
  - rewrite dumps_members_cons, !length_append.
    change (members_fuel ((k, v) :: kv' :: d)) with (S (jfuel v) + members_fuel (kv' :: d))%nat.
    simpl snd. change (String.length ", ") with 2%nat. lia.
Qed.

Lemma jfuel_bound (v : json) : fuel_bounded v.
Proof.
  induction v as [| b | n | s | l IH | d IH] using json_nested_ind; unfold fuel_bounded.
  - simpl. lia.
  - destruct b; simpl; lia.
  - apply length_dumps_int.
  - simpl. lia.
  - rewrite jfuel_list, dumps_list. pose proof (items_fuel_bound l IH).
    simpl String.length. rewrite length_append. simpl. lia.
  - rewrite jfuel_dict, dumps_dict. pose proof (members_fuel_bound d IH).
    simpl String.length. rewrite length_append. simpl. lia.
Qed.

(** [json.loads(json.dumps(v))] is [v]. *)
Lemma loads_dumps (v : json) : wf_json v → Json.loads (Json.dumps v) = Ok v.
Proof.
  intros Hwf. unfold Json.loads.
  pose proof (value_head_dumps v EmptyString) as Hh. rewrite append_nil_r in Hh.
  rewrite (value_head_skip_ws _ Hh).
  rewrite <- (append_nil_r (Json.dumps v)) at 2.
  rewrite (parse_value_print v Hwf); [reflexivity | | exact I].
  pose proof (jfuel_bound v). unfold fuel_bounded in *. lia.
Qed.

(** *** The consumer *)

Lemma list_ascii_app (a b : string) :
  list_ascii_of_string (a +:+ b) = list_ascii_of_string a ++ list_ascii_of_string b.
Proof. induction a as [|x a IH]; [reflexivity | rewrite append_cons; simpl; by rewrite IH]. Qed.

Lemma ends_with_snoc (c : ascii) (s : string) :
  ends_with c (s +:+ String c EmptyString) = true.
Proof.
  unfold ends_with. rewrite list_ascii_app, fmap_app. simpl.
  rewrite List.last_last. apply Ascii.eqb_refl.
Qed.

Lemma decode_dumps (v : json) :
  wf_json v → is_composite v = true → decode_value (JStr (Json.dumps v)) = v.
Proof.
  intros Hwf Hc. unfold decode_value.
  assert ((starts_with "{" (Json.dumps v) && ends_with "}" (Json.dumps v))
          || (starts_with "[" (Json.dumps v) && ends_with "]" (Json.dumps v)) = true) as ->.
  { destruct v as [| | | |l|d]; try discriminate Hc.
    - rewrite dumps_list. rewrite <- append_cons, (ends_with_snoc "]"). reflexivity.
    - rewrite dumps_dict. rewrite <- append_cons, (ends_with_snoc "}"). reflexivity. }
  by rewrite loads_dumps.
Qed.

(** ** Composite fields in the store *)

Lemma first_fault (f : nat → bool) (n : nat) :
  (∀ j, (j < n)%nat → f j = false)
  ∨ ∃ k, (k < n)%nat ∧ f k = true ∧ ∀ j, (j < k)%nat → f j = false.
Proof.
  induction n as [|n [IH | (k & Hk & Hf & Hlt)]].
  - left. intros j Hj. lia.
  - destruct (f n) eqn:E.
    + right. exists n. split; [lia|]. split; [exact E|]. intros j Hj. apply IH. lia.
    + left. intros j Hj. destruct (decide (j = n)) as [->|]; [exact E | apply IH; lia].
  - right. exists k. split; [lia|]. by split.
Qed.

Lemma chunk_count_lt (total k : nat) :
  (k < chunk_count total)%nat → (k * chunk_size < total)%nat.
Proof.
  intros Hk. destruct (chunk_count_div total) as (E & Hr & HN). rewrite HN in Hk.
  pose proof chunk_size_pos.
  destruct (Nat.eqb_spec (total mod chunk_size) 0); nia.
Qed.

Lemma store_data_inspect_fault (env : Env) (data : list pydict) (api : ApiConfig) (d : Db) :
  db_fault env (ops d) = true → (store_data env data api d).1 = false.
Proof.
  intros H. destruct data as [|r data]; [reflexivity|].
  unfold store_data, table_exists. rewrite H. reflexivity.
Qed.

(** A store that reports success has written the whole frame. *)
Lemma store_data_true (env : Env) (data : list pydict) (api : ApiConfig) (d d' : Db) :
  store_data env data api d = (true, d') →
  tables d' !! table_name api
  = Some {| tcolumns := union_keys data; trows := sql_rows (frame_of data) |}.
Proof.
  intros Hs.
  assert (data ≠ []) as Hne by (intros ->; discriminate Hs).
  destruct (first_fault (fun j => db_fault env (ops d + j)) (S (chunk_count (length data))))
    as [Hok | (k & Hk & Hf & Hlt)].
  - rewrite (store_data_ok env data api d Hne Hok) in Hs.
    injection Hs as <-. apply lookup_insert_eq.
  - exfalso. destruct k as [|k].
    + rewrite Nat.add_0_r in Hf.
      pose proof (store_data_inspect_fault env data api d Hf) as C.
      rewrite Hs in C. discriminate C.
    + assert (k * chunk_size < length data)%nat as Hc by (apply chunk_count_lt; lia).
      rewrite (store_data_fault env data api d k Hc) in Hs; [discriminate Hs | | |].
      * rewrite <- (Nat.add_0_r (ops d)). apply Hlt. lia.
      * intros j Hj. replace (S (ops d) + j)%nat with (ops d + S j)%nat by lia. apply Hlt. lia.
      * replace (S (ops d) + k)%nat with (ops d + S k)%nat by lia. exact Hf.
Qed.

Lemma add_key_elem (cols : list string) (k x : string) :
  x ∈ add_key cols k ↔ x ∈ cols ∨ x = k.
Proof.
  unfold add_key. destruct (existsb (Py.str_eqb k) cols) eqn:E.
  - apply existsb_str_eqb in E. set_solver.
  - set_solver.
Qed.

Lemma add_keys_elem (ks acc : list string) (x : string) :
  x ∈ fold_left add_key ks acc ↔ x ∈ acc ∨ x ∈ ks.
Proof.
  revert acc. induction ks as [|k ks IH]; intros acc; simpl; [set_solver|].
  rewrite IH, add_key_elem. set_solver.
Qed.

Lemma add_key_NoDup (cols : list string) (k : string) : NoDup cols → NoDup (add_key cols k).
Proof.
  intros H. unfold add_key. destruct (existsb (Py.str_eqb k) cols) eqn:E; [exact H|].
  apply NoDup_app. split; [exact H|]. split; [|apply NoDup_singleton].
  intros x Hx Hk. apply list_elem_of_singleton in Hk as ->.
  apply existsb_str_eqb in Hx. congruence.
Qed.

Lemma add_keys_NoDup (ks acc : list string) : NoDup acc → NoDup (fold_left add_key ks acc).
Proof.
  revert acc. induction ks as [|k ks IH]; intros acc H; [exact H|].
  simpl. apply IH. by apply add_key_NoDup.
Qed.

Lemma union_keys_acc_spec (data : list pydict) (acc : list string) :
  (NoDup acc → NoDup (fold_left (fun cols r => fold_left add_key (r.*1) cols) data acc))
  ∧ ∀ x, x ∈ fold_left (fun cols r => fold_left add_key (r.*1) cols) data acc
         ↔ x ∈ acc ∨ ∃ r, r ∈ data ∧ x ∈ r.*1.
Proof.
  revert acc. induction data as [|r data IH]; intros acc; simpl.
  - split; [done|]. set_solver.
  - destruct (IH (fold_left add_key r.*1 acc)) as (Hnd & Hin). split.
    + intros H. apply Hnd. by apply add_keys_NoDup.
    + intros x. rewrite Hin, add_keys_elem. set_solver.
Qed.

Lemma union_keys_NoDup (data : list pydict) : NoDup (union_keys data).
Proof. apply union_keys_acc_spec. constructor. Qed.

Lemma union_keys_elem (data : list pydict) (r : pydict) (k : string) :
  r ∈ data → k ∈ r.*1 → k ∈ union_keys data.
Proof. intros Hr Hk. apply union_keys_acc_spec. right. eauto. Qed.

Lemma row_get_zip (cols : list string) (cells : list cell) (j : nat) (k : string) :
  NoDup cols → cols !! j = Some k → length cells = length cols →
  row_get k (zip cols cells) = cells !! j.
Proof.
  revert cells j. induction cols as [|c cols IH]; intros cells j Hnd Hj Hlen; [done|].
  destruct cells as [|x cells]; [discriminate Hlen|].
  apply NoDup_cons in Hnd as (Hc & Hnd). simpl in Hlen.
  change (zip (c :: cols) (x :: cells)) with ((c, x) :: zip cols cells).
  change (row_get k ((c, x) :: zip cols cells))
    with (if Py.str_eqb c k then Some x else row_get k (zip cols cells)).
  destruct j as [|j].
  - injection Hj as ->. by rewrite String.eqb_refl.
  - simpl in Hj.
    assert (Py.str_eqb c k = false) as ->.
    { apply String.eqb_neq. intros ->. apply Hc. eapply list_elem_of_lookup_2. exact Hj. }
    change ((x :: cells) !! S j) with (cells !! j).
    apply IH; [exact Hnd | exact Hj | lia].
Qed.

(** The stored cell of a composite field is its JSON text. *)
Lemma stored_composite_cell (data : list pydict) (i : nat) (r : pydict) (k : string) (v : json) :
  data !! i = Some r → dict_get k r = Some v → is_composite v = true →
  ∃ row, sql_rows (frame_of data) !! i = Some row
         ∧ row_get k row = Some (Val (JStr (Json.dumps v))).
Proof.
  intros Hi Hk Hv.
  assert (k ∈ union_keys data) as Hin.
  { apply (union_keys_elem data r); [eapply list_elem_of_lookup_2; exact Hi|].
    destruct (decide (k ∈ r.*1)) as [|Hn]; [done|].
    apply dict_get_None in Hn. congruence. }
  apply list_elem_of_lookup_1 in Hin as [j Hj].
  pose proof (lookup_lt_Some _ _ _ Hj) as Hjlt.
  set (cols := union_keys data) in *.
  set (df := DataFrame_of data).
  assert (rows df !! i = Some (cell_of r <$> cols)) as Hrow.
  { unfold df, DataFrame_of. cbn [rows]. by rewrite list_lookup_fmap, Hi. }
  assert ((cell_of r <$> cols) !! j = Some (Val v)) as Hcell.
  { rewrite list_lookup_fmap, Hj. simpl. unfold cell_of. by rewrite Hk. }
  assert (existsb cell_is_composite (column_cells df j) = true) as Hcomplex.
  { apply existsb_exists. exists (Val v). split; [|exact Hv].
    apply list_elem_of_In. unfold column_cells.
    apply (list_elem_of_lookup_2 _ i). rewrite list_lookup_fmap, Hrow. simpl.
    by rewrite Hcell. }
  eexists. split.
  - unfold sql_rows, frame_of, convert_complex. cbn [rows columns].
    fold df. rewrite !list_lookup_fmap, Hrow. reflexivity.
  - cbn [columns]. change (columns df) with cols.
    rewrite (row_get_zip cols _ j k); [| apply union_keys_NoDup | exact Hj |].
    2:{ by rewrite !length_fmap, length_imap, length_fmap. }
    rewrite list_lookup_fmap, list_lookup_imap, Hcell. simpl.
    rewrite list_lookup_fmap, lookup_seq_lt by exact Hjlt. simpl.
    rewrite Hcomplex. by destruct v.
Qed.

(** C8. In the table a successful store leaves, the cell of every field
    whose value is a list or a dict is the JSON text of that value, and
    decoding the text, with [json.loads] or through the decoding step of
    the consumer, gives the value back. *)
Theorem composite_field_round_trip (env : Env) (data : list pydict) (api : ApiConfig)
    (d d' : Db) (i : nat) (r : pydict) (k : string) (v : json) :
  store_data env data api d = (true, d') →
  data !! i = Some r →
  dict_get k r = Some v →
  is_composite v = true →
  wf_json v →
  ∃ t row,
    tables d' !! table_name api = Some t
    ∧ trows t !! i = Some row
    ∧ row_get k row = Some (Val (JStr (Json.dumps v)))
    ∧ Json.loads (Json.dumps v) = Ok v
    ∧ decode_value (JStr (Json.dumps v)) = v.
Proof.
  intros Hs Hi Hk Hv Hwf.
  destruct (stored_composite_cell data i r k v Hi Hk Hv) as (row & Hrow & Hcell).
  eexists _, row. split; [exact (store_data_true env data api d d' Hs)|].
  split; [exact Hrow|]. split; [exact Hcell|].
  split; [by apply loads_dumps | by apply decode_dumps].
Qed.

Lemma composite_field_round_trip_witness :
  ∃ t row,
    tables (store_data env_down [rec_nested] api_posts empty_db).2 !! table_name api_posts
    = Some t
    ∧ trows t !! 0%nat = Some row
    ∧ row_get "meta" row = Some (Val (JStr (Json.dumps nested_value)))
    ∧ Json.loads (Json.dumps nested_value) = Ok nested_value
    ∧ decode_value (JStr (Json.dumps nested_value)) = nested_value.
Proof.
  apply (composite_field_round_trip env_down [rec_nested] api_posts empty_db
           (store_data env_down [rec_nested] api_posts empty_db).2
           0 rec_nested "meta" nested_value).
  - vm_compute. reflexivity.
  - reflexivity.
  - reflexivity.
  - reflexivity.
  - simpl. split; [|done].
    apply NoDup_cons. split; [set_solver | apply NoDup_singleton].
Defined.

(** ** More on [ApiConfig] *)

Lemma not_opt_str_false (q : option string) :
  Py.not_opt_str q = false ↔ ∃ c s, q = Some (String c s).
Proof.
  destruct q as [[|c s]|]; simpl; split; try discriminate; eauto;
    by intros (c' & s' & [=]).
Qed.

Lemma constructed_valid_args (a : ApiArgs) (api : ApiConfig) :
  ApiConfig_init a = Ok api → valid_args a.
Proof.
  unfold valid_args, ApiConfig_init. intros H.
  destruct (Py.not_str (a_url a)) eqn:Hu; [discriminate|].
  split; [intros E; rewrite E in Hu; discriminate|].
  destruct (Py.str_eqb (a_api_type a) "REST") eqn:Hr.
  - left. by apply str_eqb_eq.
  - destruct (Py.str_eqb (a_api_type a) "GraphQL") eqn:Hg; [|discriminate].
    right. split; [by apply str_eqb_eq|]. simpl in H.
    destruct (Py.not_opt_str (a_query a)) eqn:Hq; [discriminate|].
    by apply not_opt_str_false.
Qed.

Lemma valid_args_constructed (a : ApiArgs) :
  valid_args a → ∃ api, ApiConfig_init a = Ok api.
Proof.
  unfold valid_args, ApiConfig_init. intros [Hu Hty].
  assert (Py.not_str (a_url a) = false) as ->.
  { destruct (a_url a); [contradiction | reflexivity]. }
  destruct Hty as [-> | [-> Hq]].
  - eexists. reflexivity.
  - apply not_opt_str_false in Hq. rewrite Hq. eexists. reflexivity.
Qed.

Lemma ApiConfig_init_ValueError (a : ApiArgs) (e : exn) :
  ApiConfig_init a = Raise e → ∃ msg, e = ValueError msg.
Proof.
  unfold ApiConfig_init. repeat case_match; intros [= <-]; eauto.
Qed.

Lemma invalid_args_raise (a : ApiArgs) :
  ¬ valid_args a → ∃ msg, ApiConfig_init a = Raise (ValueError msg).
Proof.
  intros Hn. destruct (ApiConfig_init a) as [api|e] eqn:E.
  - destruct Hn. by apply (constructed_valid_args a api).
  - destruct (ApiConfig_init_ValueError a e E) as [msg ->]. eauto.
Qed.

(** X1. The constructor accepts exactly the arguments with a non-empty
    URL, a type among the two, and a non-empty query when the type is
    GraphQL: label, parameters, headers, table name, retry count and
    timeout are never a reason to reject, whatever their values. *)
Theorem ApiConfig_init_accepts_iff (a : ApiArgs) :
  (∃ api, ApiConfig_init a = Ok api) ↔ valid_args a.
Proof.
  split.
  - intros [api H]. by apply (constructed_valid_args a api).
  - apply valid_args_constructed.
Qed.

Lemma ApiConfig_init_accepts_iff_witness :
  (∃ api, ApiConfig_init args_breweries = Ok api) ∧ ¬ valid_args args_graphql_empty_query.
Proof.
  split.
  - apply (proj2 (ApiConfig_init_accepts_iff args_breweries)).
    split; [discriminate | by left].
  - intros H. apply (proj2 (ApiConfig_init_accepts_iff args_graphql_empty_query)) in H.
    destruct H as [api H]. discriminate H.
Defined.

(** *** Splitting and replacing on one character *)

Lemma chars_app (a b : string) : chars (a +:+ b) = chars a ++ chars b.
Proof. apply list_ascii_app. Qed.

Lemma prefix_single (c x : ascii) (s : string) :
  String.prefix (String c EmptyString) (String x s) = Ascii.eqb x c.
Proof.
  simpl. destruct (ascii_dec c x) as [->|Hne].
  - rewrite Ascii.eqb_refl. by destruct s.
  - symmetry. apply Ascii.eqb_neq. congruence.
Qed.

Lemma split_go_single (c : ascii) (x : ascii) (s cur : string) :
  Py.split_go (String c EmptyString) (String x s) O cur
  = if Ascii.eqb x c
    then cur :: Py.split_go (String c EmptyString) s O EmptyString
    else Py.split_go (String c EmptyString) s O (cur +:+ String x EmptyString).
Proof.
  change (Py.split_go (String c EmptyString) (String x s) O cur)
    with (if String.prefix (String c EmptyString) (String x s)
          then cur :: Py.split_go (String c EmptyString) s O EmptyString
          else Py.split_go (String c EmptyString) s O (cur +:+ String x EmptyString)).
  by rewrite prefix_single.
Qed.

(** The pieces of a split on a character do not contain it. *)
Lemma split_go_pieces (c : ascii) (s cur : string) :
  c ∉ chars cur →
  Forall (fun piece => c ∉ chars piece) (Py.split_go (String c EmptyString) s O cur).
Proof.
  revert cur. induction s as [|x s IH]; intros cur Hcur.
  - by apply Forall_singleton.
  - rewrite split_go_single. destruct (Ascii.eqb x c) eqn:E.
    + apply Forall_cons. split; [exact Hcur|]. apply IH. set_solver.
    + apply IH. rewrite chars_app. apply Ascii.eqb_neq in E.
      unfold chars at 2. simpl. set_solver.
Qed.

Lemma split_go_nonempty (sep s : string) (k : nat) (cur : string) :
  Py.split_go sep s k cur ≠ [].
Proof.
  revert k cur. induction s as [|x s IH]; intros k cur; [discriminate|].
  change (Py.split_go sep (String x s) k cur)
    with (match k with
          | S k' => Py.split_go sep s k' cur
          | O => if String.prefix sep (String x s)
                 then cur :: Py.split_go sep s (Nat.pred (String.length sep)) EmptyString
                 else Py.split_go sep s O (cur +:+ String x EmptyString)
          end).
  destruct k; [|apply IH]. destruct (String.prefix sep (String x s)); [discriminate | apply IH].
Qed.







Lemma default_label_chars (u : string) : "/"%char ∉ chars (default_label u).
Proof.
  unfold default_label, Py.first_piece, Py.split.
  pose proof (split_go_pieces "/" (Py.last_piece (Py.split_go "//" u 0 EmptyString))
                EmptyString ltac:(unfold chars; simpl; set_solver)) as H.
  pose proof (split_go_nonempty "/" (Py.last_piece (Py.split_go "//" u 0 EmptyString))
                O EmptyString) as Hne.
  destruct (Py.split_go "/" _ O EmptyString) as [|p ps]; [done|].
  simpl. by apply Forall_inv in H.
Qed.

Lemma ApiConfig_init_names (a : ApiArgs) (api : ApiConfig) :
  ApiConfig_init a = Ok api →
  label api = Py.str_or (a_label a) (default_label (a_url a))
  ∧ table_name api = Py.str_or (a_table_name a) (default_table_name (label api)).
Proof.
  unfold ApiConfig_init. repeat case_match; try discriminate; by intros [= <-].
Qed.



(** X3. When no label is given, or an empty one, the label of the
    constructed source is the part of the URL after its last double slash
    and before the next slash: it contains no slash. *)
Theorem derived_label_no_slash (a : ApiArgs) (api : ApiConfig) :
  ApiConfig_init a = Ok api →
  Py.not_opt_str (a_label a) = true →
  label api = Py.first_piece (Py.split "/" (Py.last_piece (Py.split "//" (url api))))
  ∧ "/"%char ∉ chars (label api).
Proof.
  intros Hinit Hno. destruct (ApiConfig_init_names a api Hinit) as [Hl _].
  destruct (ApiConfig_init_Ok a api Hinit) as (Hu & _).
  assert (label api = default_label (url api)) as E.
  { rewrite Hl, Hu. by destruct (a_label a) as [[|c s]|]. }
  split; [exact E|]. rewrite E. apply default_label_chars.
Qed.

Lemma derived_label_no_slash_witness :
  label api_breweries
  = Py.first_piece (Py.split "/" (Py.last_piece (Py.split "//" (url api_breweries))))
  ∧ "/"%char ∉ chars (label api_breweries).
Proof.
  apply (derived_label_no_slash args_breweries api_breweries); reflexivity.
Defined.

(** ** More on the fetch stage *)

(** X4. For a source of type REST or GraphQL, a response with status 200
    ends the fetch after that one request: the payload is the decoded
    body, or the absence outcome when the body does not decode. *)
Theorem fetch_data_on_200 (env : Env) (api : ApiConfig) (log : list event)
    (body : result json) :
  type api = "REST" ∨ type api = "GraphQL" →
  http env (url api) (attempts (url api) log) = Reply 200 body →
  fetch_data env api log
  = (Ok (Some (api, match body with Ok data => data | Raise _ => JNull end)),
     log ++ [Request (method_of api) (url api)]).
Proof.
  intros Hty Hreply.
  rewrite fetch_data_unfold, (do_fetch_dispatch _ _ _ Hty). unfold exchange.
  rewrite Hreply. simpl. by destruct body.
Qed.

Lemma fetch_data_on_200_witness :
  fetch_data env_two_records api_posts []
  = (Ok (Some (api_posts, JList [JDict (rec_id 1); JDict (rec_id 2)])),
     [Request "GET" "https://jsonplaceholder.typicode.com/posts"])
  ∧ fetch_data env_bad_body api_posts []
    = (Ok (Some (api_posts, JNull)),
       [Request "GET" "https://jsonplaceholder.typicode.com/posts"]).
Proof.
  split.
  - apply (fetch_data_on_200 env_two_records api_posts []
             (Ok (JList [JDict (rec_id 1); JDict (rec_id 2)]))); [by left | reflexivity].
  - apply (fetch_data_on_200 env_bad_body api_posts [] (Raise ClientError));
      [by left | reflexivity].
Defined.

Lemma gather_cons (env : Env) (api : ApiConfig) (apis : list ApiConfig) (log : list event) :
  gather env (api :: apis) log
  = (let '(r, log1) := fetch_data env api log in
     let '(rs, log2) := gather env apis log1 in
     (r :: rs, log2)).
Proof. reflexivity. Qed.

Lemma gather_log (env : Env) (apis : list ApiConfig) (log : list event) :
  Forall (fun api => type api = "REST" ∨ type api = "GraphQL") apis →
  (gather env apis log).2 = log ++ (request_of <$> apis).
Proof.
  intros Hv. revert log. induction Hv as [|api apis Hty _ IH]; intros log.
  - simpl. by rewrite app_nil_r.
  - rewrite gather_cons, fmap_cons.
    destruct (fetch_data_pair env api log Hty) as [payload ->].
    specialize (IH (log ++ [Request (method_of api) (url api)])).
    destruct (gather env apis _) as [rs log2]. cbn [snd] in *. subst log2.
    by rewrite <- app_assoc.
Qed.

(** X5. In a run over validated sources the fetch stage sends exactly
    one request per source, in the order of the list, whatever the peers
    answer: no source is skipped or asked twice. *)
Theorem one_request_per_source (env : Env) (apis : list ApiConfig) (w : World) :
  db_init_fails env = false →
  Forall (fun api => type api = "REST" ∨ type api = "GraphQL") apis →
  ∃ report w',
    process_apis env apis w = (Ok report, w')
    ∧ net w' = net w ++ (request_of <$> apis).
Proof.
  intros Hinit Hv.
  destruct (process_apis_validated env apis w Hinit Hv) as (_ & _ & w' & Hrun).
  eexists _, w'. split; [exact Hrun|].
  pose proof (gather_log env apis (net w) Hv) as Hlog.
  unfold process_apis in Hrun. rewrite Hinit in Hrun.
  destruct (gather env apis (net w)) as [rs log]. simpl in Hlog. subst log.
  destruct (submit rs) as [r units]. destruct (run_units env units (db w)) as [counts d'].
  destruct r; injection Hrun as _ <-; reflexivity.
Qed.

Lemma one_request_per_source_witness :
  ∃ report w',
    process_apis env_three three_sources world0 = (Ok report, w')
    ∧ net w' = net world0 ++ (request_of <$> three_sources).
Proof.
  apply (one_request_per_source env_three three_sources world0).
  - reflexivity.
  - repeat constructor; left; reflexivity.
Defined.

(** The fetch of a source never raises. *)
Lemma fetch_data_Ok (env : Env) (api : ApiConfig) (log : list event) :
  ∃ r, (fetch_data env api log).1 = Ok r.
Proof.
  rewrite fetch_data_unfold. destruct (_do_fetch env api log) as [[r|e] log']; eauto.
Qed.

Lemma fetch_data_unknown_type (env : Env) (api : ApiConfig) (log : list event) :
  type api ≠ "REST" → type api ≠ "GraphQL" →
  fetch_data env api log = (Ok None, log).
Proof.
  intros Hr Hg. rewrite fetch_data_unfold. unfold _do_fetch.
  apply str_eqb_neq in Hr, Hg. by rewrite Hr, Hg.
Qed.

Lemma gather_results (env : Env) (apis : list ApiConfig) (log : list event) :
  Forall (fun r => ∃ o, r = Ok o) (gather env apis log).1
  ∧ ∀ api, api ∈ apis → type api ≠ "REST" → type api ≠ "GraphQL" →
           Ok None ∈ (gather env apis log).1.
Proof.
  revert log. induction apis as [|api apis IH]; intros log.
  - split; [constructor | set_solver].
  - rewrite gather_cons.
    destruct (fetch_data_Ok env api log) as [o Ho].
    pose proof (fetch_data_unknown_type env api log) as Hu.
    destruct (fetch_data env api log) as [r log1]. simpl in Ho. subst r.
    destruct (IH log1) as (Hall & Hin).
    destruct (gather env apis log1) as [rs log2]. simpl in *. split.
    + constructor; eauto.
    + intros api' Hin' Hr Hg. apply elem_of_cons in Hin' as [->|Hin'].
      * specialize (Hu Hr Hg). injection Hu as -> _. set_solver.
      * apply elem_of_cons. right. by apply (Hin api').
Qed.

Lemma submit_unpack_error (rs : list (result (option (ApiConfig * json)))) :
  Forall (fun r => ∃ o, r = Ok o) rs → Ok None ∈ rs → (submit rs).1 = Raise TypeError.
Proof.
  induction 1 as [|r rs [o ->] _ IH]; intros Hin; [set_solver|].
  destruct o as [[api raw]|]; [|reflexivity].
  apply elem_of_cons in Hin as [Heq|Hin]; [discriminate Heq|].
  specialize (IH Hin).
  change (submit (Ok (Some (api, raw)) :: rs))
    with (let '(r, units) := submit rs in
          if truthy raw then (r, (api, raw) :: units) else (r, units)).
  destruct (submit rs) as [r units]. simpl in IH. subst r. by destruct (truthy raw).
Qed.

(** X6. A source whose type is neither REST nor GraphQL makes the whole
    run fail: its fetch sends nothing and returns no pair, unpacking that
    result raises [TypeError], and [process_apis] returns no report. *)
Theorem unknown_type_aborts_run (env : Env) (apis : list ApiConfig) (w : World)
    (api : ApiConfig) :
  db_init_fails env = false →
  api ∈ apis →
  type api ≠ "REST" → type api ≠ "GraphQL" →
  (process_apis env apis w).1 = Raise TypeError.
Proof.
  intros Hinit Hin Hr Hg.
  destruct (gather_results env apis (net w)) as (Hall & Hnone).
  specialize (Hnone api Hin Hr Hg).
  pose proof (submit_unpack_error _ Hall Hnone) as Hs.
  unfold process_apis. rewrite Hinit.
  destruct (gather env apis (net w)) as [rs log]. simpl in *.
  destruct (submit rs) as [r units]. simpl in Hs. subst r.
  by destruct (run_units env units (db w)).
Qed.

Lemma unknown_type_aborts_run_witness :
  (process_apis env_three [src_items; src_soap; src_odd] world0).1 = Raise TypeError.
Proof.
  apply (unknown_type_aborts_run env_three [src_items; src_soap; src_odd] world0 src_soap).
  - reflexivity.
  - set_solver.
  - discriminate.
  - discriminate.
Defined.

(** ** Runs without a payload *)

Lemma fetch_data_absent (env : Env) (api : ApiConfig) (log : list event) :
  type api = "REST" ∨ type api = "GraphQL" →
  ((∃ e, http env (url api) (attempts (url api) log) = NoReply e)
   ∨ ∃ status body, http env (url api) (attempts (url api) log) = Reply status body
                    ∧ status ≠ 200) →
  fetch_data env api log
  = (Ok (Some (api, JNull)), log ++ [Request (method_of api) (url api)]).
Proof.
  intros Hty Hreply.
  rewrite fetch_data_unfold, (do_fetch_dispatch _ _ _ Hty). unfold exchange.
  destruct Hreply as [[e ->] | (status & body & -> & Hst)]; [reflexivity|].
  destruct (status =? 200) eqn:E; [apply Z.eqb_eq in E; contradiction | reflexivity].
Qed.

Lemma gather_absent (env : Env) (apis : list ApiConfig) (log : list event) :
  Forall (fun api => type api = "REST" ∨ type api = "GraphQL") apis →
  (∀ api n, api ∈ apis →
     (∃ e, http env (url api) n = NoReply e)
     ∨ ∃ status body, http env (url api) n = Reply status body ∧ status ≠ 200) →
  gather env apis log
  = ((fun api => Ok (Some (api, JNull))) <$> apis,
     log ++ ((fun api => Request (method_of api) (url api)) <$> apis)).
Proof.
  intros Hv. revert log. induction Hv as [|api apis Hty _ IH]; intros log Hdown.
  - simpl. by rewrite app_nil_r.
  - change (gather env (api :: apis) log)
      with (let '(r, log1) := fetch_data env api log in
            let '(rs, log2) := gather env apis log1 in
            (r :: rs, log2)).
    rewrite (fetch_data_absent env api log Hty) by (apply Hdown; set_solver).
    rewrite IH by (intros api' n Hin; apply Hdown; set_solver).
    rewrite !fmap_cons, <- app_assoc. reflexivity.
Qed.

Lemma submit_absent (apis : list ApiConfig) :
  submit ((fun api => Ok (Some (api, JNull))) <$> apis) = (Ok tt, []).
Proof.
  induction apis as [|api apis IH]; [reflexivity|].
  rewrite fmap_cons.
  change (submit (Ok (Some (api, JNull)) :: ?rest))
    with (let '(r, units) := submit rest in
          if truthy JNull then (r, (api, JNull) :: units) else (r, units)).
  by rewrite IH.
Qed.

(** X7. When every fetch of a run over validated sources fails, by a
    transport error or a status other than 200, the run still completes:
    each source was asked once, the report is empty and the database is
    exactly as before. *)
Theorem all_fetches_fail (env : Env) (apis : list ApiConfig) (w : World) :
  db_init_fails env = false →
  Forall (fun api => type api = "REST" ∨ type api = "GraphQL") apis →
  (∀ api n, api ∈ apis →
     (∃ e, http env (url api) n = NoReply e)
     ∨ ∃ status body, http env (url api) n = Reply status body ∧ status ≠ 200) →
  process_apis env apis w
  = (Ok ∅, {| net := net w ++ ((fun api => Request (method_of api) (url api)) <$> apis);
              db := db w |}).
Proof.
  intros Hinit Hv Hdown. unfold process_apis.
  rewrite Hinit, (gather_absent env apis (net w) Hv Hdown), submit_absent. reflexivity.
Qed.

Lemma all_fetches_fail_witness :
  process_apis env_500 [src_500; src_down] world0
  = (Ok ∅, {| net := net world0
                     ++ ((fun api => Request (method_of api) (url api)) <$> [src_500; src_down]);
              db := db world0 |}).
Proof.
  apply (all_fetches_fail env_500 [src_500; src_down] world0).
  - reflexivity.
  - repeat constructor; left; reflexivity.
  - intros api n _. right. eexists _, _. split; [reflexivity | lia].
Defined.

(** ** More on [transform_data] *)

(** What the transformer makes of a working payload once the envelope is
    off. *)
Lemma transform_rest (env : Env) (api : ApiConfig) (v : json) :
  type api = "REST" →
  transform_data env v api
  = match (match v with
           | JList l => normalize_records env l
           | JDict d => normalize_records env (extract_nested ["results"; "items"; "data"] d)
           | _ => Ok []
           end) with
    | Ok records => records
    | Raise _ => []
    end.
Proof.
  intros Hty. unfold transform_data, transform_steps. rewrite Hty.
  destruct v as [|[]|n|s|[|x l]|[|kv d]]; try reflexivity.
  simpl. destruct (n =? 0); reflexivity.
  simpl. destruct s; reflexivity.
Qed.

(** X8. For a REST source and an object payload, the records are those
    of the list found under [results], else under [items], else under
    [data]; an object without such a list is one record. *)
Theorem object_payload_list_preference (env : Env) (api : ApiConfig) (d : pydict)
    (l : list json) :
  type api = "REST" →
  (dict_get "results" d = Some (JList l) →
   transform_data env (JDict d) api = transform_data env (JList l) api)
  ∧ (is_list (default JNull (dict_get "results" d)) = false →
     dict_get "items" d = Some (JList l) →
     transform_data env (JDict d) api = transform_data env (JList l) api)
  ∧ (is_list (default JNull (dict_get "results" d)) = false →
     is_list (default JNull (dict_get "items" d)) = false →
     dict_get "data" d = Some (JList l) →
     transform_data env (JDict d) api = transform_data env (JList l) api)
  ∧ (is_list (default JNull (dict_get "results" d)) = false →
     is_list (default JNull (dict_get "items" d)) = false →
     is_list (default JNull (dict_get "data" d)) = false →
     transform_data env (JDict d) api = transform_data env (JList [JDict d]) api).
Proof.
  intros Hty. rewrite !(transform_rest env api _ Hty).
  assert (∀ k rest, is_list (default JNull (dict_get k d)) = false →
            extract_nested (k :: rest) d = extract_nested rest d) as Hskip.
  { intros k rest H. simpl. destruct (dict_get k d) as [[]|]; try reflexivity.
    discriminate H. }
  split; [|split; [|split]].
  - intros H. simpl. by rewrite H.
  - intros H1 H. rewrite (Hskip _ _ H1). simpl. by rewrite H.
  - intros H1 H2 H. rewrite (Hskip _ _ H1), (Hskip _ _ H2). simpl. by rewrite H.
  - intros H1 H2 H3. by rewrite (Hskip _ _ H1), (Hskip _ _ H2), (Hskip _ _ H3).
Qed.

Lemma object_payload_list_preference_witness :
  transform_data env_down (JDict object_with_results) api_posts
  = transform_data env_down (JList [JDict (rec_id 1)]) api_posts
  ∧ transform_data env_down (JDict object_with_items) api_posts
    = transform_data env_down (JList [JDict (rec_id 1)]) api_posts
  ∧ transform_data env_down (JDict object_with_data) api_posts
    = transform_data env_down (JList [JDict (rec_id 1)]) api_posts
  ∧ transform_data env_down (JDict object_alone) api_posts
    = transform_data env_down (JList [JDict object_alone]) api_posts.
Proof.
  destruct (object_payload_list_preference env_down api_posts object_with_results
              [JDict (rec_id 1)] eq_refl) as (H1 & _).
  destruct (object_payload_list_preference env_down api_posts object_with_items
              [JDict (rec_id 1)] eq_refl) as (_ & H2 & _).
  destruct (object_payload_list_preference env_down api_posts object_with_data
              [JDict (rec_id 1)] eq_refl) as (_ & _ & H3 & _).
  destruct (object_payload_list_preference env_down api_posts object_alone
              [] eq_refl) as (_ & _ & _ & H4).
  split; [apply H1; reflexivity|].
  split; [apply H2; reflexivity|].
  split; [apply H3; reflexivity | apply H4; reflexivity].
Defined.

(** *** Shape of the records *)

Lemma dict_set_Forall (Q : string * json → Prop) (k : string) (v : json) (acc : pydict) :
  Q (k, v) → Forall Q acc → Forall Q (dict_set k v acc).
Proof.
  intros Hv. induction 1 as [|[k' v'] acc Hx Hacc IH]; simpl.
  - by apply Forall_singleton.
  - destruct (Py.str_eqb k' k); apply Forall_cons; by split.
Qed.

Lemma depth_dict_member (d : pydict) (kv : string * json) :
  kv ∈ d → (S (depth kv.2) ≤ depth (JDict d))%nat.
Proof.
  change (depth (JDict d)) with (S (fold_right (fun kv n => Nat.max (depth kv.2) n) O d)).
  induction d as [|kv' d IH]; intros Hin; [set_solver|].
  apply elem_of_cons in Hin as [->|Hin]; simpl; [lia|].
  specialize (IH Hin). lia.
Qed.

Lemma depth_pos (v : json) : (1 ≤ depth v)%nat.
Proof. destruct v; simpl; lia. Qed.

(** Flattening with enough fuel leaves no dict among the values. *)
Lemma normalise_json_flat (v : json) :
  ∀ fuel key acc,
    (depth v ≤ fuel)%nat →
    Forall (fun kv : string * json => is_dict kv.2 = false) acc →
    Forall (fun kv : string * json => is_dict kv.2 = false) (normalise_json fuel v key acc).
Proof.
  induction v as [| b | n | s | l _ | d IH] using json_nested_ind;
    intros fuel key acc Hf Hacc;
    (destruct fuel as [|f]; [pose proof (depth_pos ltac:(eassumption || exact JNull)); simpl in Hf; lia|]);
    try (by apply dict_set_Forall).
  change (normalise_json (S f) (JDict d) key acc)
    with (fold_left (fun acc' kv =>
                       normalise_json f kv.2
                         (if Py.not_str key then kv.1 else key +:+ "." +:+ kv.1) acc') d acc).
  assert (∀ kv, kv ∈ d → (depth kv.2 ≤ f)%nat) as Hd.
  { intros kv Hin. pose proof (depth_dict_member d kv Hin). lia. }
  clear Hf. revert acc Hacc. induction IH as [|kv d Hkv _ IHd]; intros acc Hacc; [exact Hacc|].
  simpl. apply IHd.
  - intros kv' Hin. apply Hd. set_solver.
  - apply Hkv; [apply Hd; set_solver | exact Hacc].
Qed.

Lemma fold_dict_set_flat (src acc : pydict) :
  Forall (fun kv : string * json => is_dict kv.2 = false) src →
  Forall (fun kv : string * json => is_dict kv.2 = false) acc →
  Forall (fun kv : string * json => is_dict kv.2 = false)
         (fold_left (fun a kv => dict_set kv.1 kv.2 a) src acc).
Proof.
  intros Hsrc. revert acc. induction Hsrc as [|[k v] src Hx _ IH]; intros acc Hacc; [exact Hacc|].
  simpl. apply IH. by apply dict_set_Forall.
Qed.

Lemma normalise_json_ordered_flat (d : pydict) :
  Forall (fun kv : string * json => is_dict kv.2 = false) (normalise_json_ordered d).
Proof.
  unfold normalise_json_ordered. apply fold_dict_set_flat.
  - apply normalise_json_flat; [lia | constructor].
  - apply Forall_forall. intros kv Hin. by apply list_elem_of_filter in Hin as [H _].
Qed.

Lemma cell_of_flat (r : pydict) (c : string) :
  Forall (fun kv : string * json => is_dict kv.2 = false) r →
  is_dict (notnull_or_None (cell_of r c)) = false.
Proof.
  intros Hr. unfold cell_of. destruct (dict_get c r) as [v|] eqn:E; [|reflexivity].
  simpl. induction Hr as [|[k' v'] r Hx _ IH]; [discriminate E|].
  simpl in E. destruct (Py.str_eqb k' c); [by injection E as <- | by apply IH].
Qed.

(** The records [to_dict] gives for a frame built from [data]. *)
Lemma to_dict_records_spec (data : list pydict) :
  to_dict_records (DataFrame_of data)
  = match union_keys data with
    | [] => []
    | _ => (fun r => (fun c => (c, notnull_or_None (cell_of r c))) <$> union_keys data) <$> data
    end.
Proof.
  unfold to_dict_records, DataFrame_of. cbn [columns rows].
  destruct (union_keys data) as [|c cols] eqn:E; [reflexivity|].
  rewrite <- list_fmap_compose. apply list_fmap_ext. intros i r _. apply row_record.
Qed.

(** X9. For a payload that is a list of objects, nested or not, the
    records of a REST source all list the same keys in the same order,
    the keys met first coming first; there is one record per object
    unless no object has any key; and no value of a record is a dict. *)
Theorem records_share_columns (env : Env) (api : ApiConfig) (l : list pydict) :
  type api = "REST" →
  Forall (fun r => r.*1 = union_keys (normalise_json_ordered <$> l)
                   ∧ Forall (fun kv => is_dict kv.2 = false) r)
         (transform_data env (JList (JDict <$> l)) api)
  ∧ (union_keys (normalise_json_ordered <$> l) ≠ [] →
     length (transform_data env (JList (JDict <$> l)) api) = length l).
Proof.
  intros Hty.
  rewrite (transform_rest env api _ Hty). unfold normalize_records.
  rewrite mapM_as_dict, to_dict_records_spec.
  set (data := normalise_json_ordered <$> l).
  destruct (union_keys data) as [|c cols] eqn:E; [split; [constructor | done]|].
  split.
  - apply Forall_fmap, Forall_forall. intros r Hr. split.
    + apply (tabulate_keys (fun c => notnull_or_None (cell_of r c))).
    + apply Forall_fmap, Forall_forall. intros k _. simpl.
      apply cell_of_flat. unfold data in Hr.
      apply list_elem_of_fmap in Hr as (d & -> & _). apply normalise_json_ordered_flat.
  - intros _. unfold data. by rewrite !length_fmap.
Qed.

Lemma records_share_columns_witness :
  Forall (fun r => r.*1 = ["id"; "meta.tags"; "meta.ok"; "title"]
                   ∧ Forall (fun kv => is_dict kv.2 = false) r)
         (transform_data env_down (JList (JDict <$> [rec_nested; rec_id 2])) api_posts)
  ∧ length (transform_data env_down (JList (JDict <$> [rec_nested; rec_id 2])) api_posts)
    = 2%nat.
Proof.
  destruct (records_share_columns env_down api_posts [rec_nested; rec_id 2] eq_refl)
    as [Hkeys Hlen].
  split; [exact Hkeys | apply Hlen; discriminate].
Defined.

(** *** The GraphQL envelope *)

Lemma transform_graphql (env : Env) (api rest_api : ApiConfig) (raw v : json) :
  type api = "GraphQL" → type rest_api = "REST" →
  truthy raw = true →
  unwrap_graphql raw = Ok v →
  transform_data env raw api = transform_data env v rest_api.
Proof.
  intros Hty Hrest Htruthy Hu.
  rewrite (transform_rest env rest_api v Hrest).
  unfold transform_data, transform_steps. rewrite Htruthy, Hty, Hu. reflexivity.
Qed.

Lemma transform_graphql_error (env : Env) (api : ApiConfig) (raw : json) (e : exn) :
  type api = "GraphQL" →
  unwrap_graphql raw = Raise e →
  transform_data env raw api = [].
Proof.
  intros Hty Hu. unfold transform_data, transform_steps. rewrite Hty, Hu.
  by destruct (truthy raw).
Qed.

Lemma dict_has_get (k : string) (d : pydict) :
  dict_has k d = match dict_get k d with Some _ => true | None => false end.
Proof. reflexivity. Qed.

Lemma truthy_with_key (k : string) (p : pydict) (v : json) :
  dict_get k p = Some v → truthy (JDict p) = true.
Proof. by destruct p. Qed.

(** X10. For a GraphQL source whose payload has an object under [data],
    the records are those of the working payload taken out of the
    envelope, treated as a REST payload would be: the [results] of
    [data.characters] when there is one, else [data.countries], else the
    value of the first key of [data]. *)
Theorem graphql_envelope (env : Env) (api rest_api : ApiConfig) (p dd : pydict) :
  type api = "GraphQL" → type rest_api = "REST" →
  dict_get "data" p = Some (JDict dd) →
  (∀ c v, dict_get "characters" dd = Some (JDict c) → dict_get "results" c = Some v →
          transform_data env (JDict p) api = transform_data env v rest_api)
  ∧ (∀ v, dict_get "characters" dd = None → dict_get "countries" dd = Some v →
          transform_data env (JDict p) api = transform_data env v rest_api)
  ∧ (∀ c k v rest, dict_get "characters" dd = None → dict_get "countries" dd = None →
                   dd = (String c k, v) :: rest →
                   transform_data env (JDict p) api = transform_data env v rest_api).
Proof.
  intros Hty Hrest Hdata.
  pose proof (truthy_with_key _ _ _ Hdata) as Htruthy.
  split; [|split].
  - intros c v Hc Hr. apply (transform_graphql env api rest_api _ v Hty Hrest Htruthy).
    unfold unwrap_graphql. simpl. rewrite dict_has_get, Hdata. simpl.
    rewrite dict_has_get, Hc. simpl. by rewrite Hr.
  - intros v Hc Hk. apply (transform_graphql env api rest_api _ v Hty Hrest Htruthy).
    unfold unwrap_graphql. simpl. rewrite dict_has_get, Hdata. simpl.
    rewrite !dict_has_get, Hc. simpl. rewrite Hk. reflexivity.
  - intros c k v rest Hc Hk E.
    apply (transform_graphql env api rest_api _ v Hty Hrest Htruthy).
    unfold unwrap_graphql. simpl. rewrite dict_has_get, Hdata. simpl.
    rewrite !dict_has_get, Hc. simpl. rewrite Hk. simpl.
    rewrite E. simpl. by rewrite Ascii.eqb_refl, str_eqb_refl.
Qed.

Lemma graphql_envelope_witness :
  transform_data env_down payload_characters src_countries
  = transform_data env_down (JList [JDict [("name", JStr "rick")]]) api_posts
  ∧ transform_data env_down payload_countries src_countries
    = transform_data env_down (JList [JDict [("name", JStr "X")]]) api_posts
  ∧ transform_data env_down (JDict [("data", JDict envelope_launches)]) src_countries
    = transform_data env_down (JList [JDict (rec_id 1)]) api_posts.
Proof.
  destruct (graphql_envelope env_down src_countries api_posts
              [("data", JDict [("characters",
                                JDict [("results", JList [JDict [("name", JStr "rick")]])])])]
              [("characters", JDict [("results", JList [JDict [("name", JStr "rick")]])])]
              eq_refl eq_refl eq_refl) as (H1 & _).
  destruct (graphql_envelope env_down src_countries api_posts
              [("data", JDict [("countries", JList [JDict [("name", JStr "X")]])])]
              [("countries", JList [JDict [("name", JStr "X")]])]
              eq_refl eq_refl eq_refl) as (_ & H2 & _).
  destruct (graphql_envelope env_down src_countries api_posts
              [("data", JDict envelope_launches)] envelope_launches
              eq_refl eq_refl eq_refl) as (_ & _ & H3).
  split; [exact (H1 _ _ eq_refl eq_refl)|].
  split; [exact (H2 _ eq_refl eq_refl) | exact (H3 _ _ _ _ eq_refl eq_refl eq_refl)].
Defined.

(** X11. For a GraphQL source, when [data] has a [characters] entry that
    is not an object with a [results] key, no record comes out: the
    lookup fails inside the transformer, and a [countries] collection
    next to it is not used. *)
Theorem characters_without_results (env : Env) (api : ApiConfig) (p dd : pydict) (c : json) :
  type api = "GraphQL" →
  dict_get "data" p = Some (JDict dd) →
  dict_get "characters" dd = Some c →
  (∀ cd, c = JDict cd → dict_get "results" cd = None) →
  transform_data env (JDict p) api = [].
Proof.
  intros Hty Hdata Hc Hno.
  assert (∃ e, unwrap_graphql (JDict p) = Raise e) as [e He].
  { unfold unwrap_graphql. simpl. rewrite dict_has_get, Hdata. simpl.
    rewrite dict_has_get, Hc. simpl.
    destruct c as [| | | | |cd]; simpl; eauto.
    rewrite (Hno cd eq_refl). eauto. }
  by apply (transform_graphql_error env api _ e).
Qed.

Lemma characters_without_results_witness :
  transform_data env_down (JDict [("data", JDict envelope_null_characters)]) src_countries = [].
Proof.
  apply (characters_without_results env_down src_countries
           [("data", JDict envelope_null_characters)] envelope_null_characters JNull);
    [reflexivity | reflexivity | reflexivity | discriminate].
Defined.

(** ** More on [store_data] *)

(** X12. [store_data] reports success only when every record is in the
    table: the table then has the columns of the records and one row per
    record, and the record list was not empty. *)
Theorem store_success_means_all_rows (env : Env) (data : list pydict) (api : ApiConfig)
    (d d' : Db) :
  store_data env data api d = (true, d') →
  data ≠ []
  ∧ ∃ t, tables d' !! table_name api = Some t
         ∧ tcolumns t = union_keys data
         ∧ length (trows t) = length data.
Proof.
  intros Hs. split; [intros ->; discriminate Hs|].
  eexists. split; [exact (store_data_true env data api d d' Hs)|].
  split; [reflexivity|]. simpl. unfold sql_rows.
  by rewrite length_fmap, frame_of_rows_length.
Qed.

Lemma store_success_means_all_rows_witness :
  [rec_id 1; rec_id 2] ≠ []
  ∧ ∃ t, tables (store_data env_down [rec_id 1; rec_id 2] api_posts db_with_posts).2
           !! table_name api_posts = Some t
         ∧ tcolumns t = union_keys [rec_id 1; rec_id 2]
         ∧ length (trows t) = length [rec_id 1; rec_id 2].
Proof.
  apply (store_success_means_all_rows env_down [rec_id 1; rec_id 2] api_posts db_with_posts).
  vm_compute. reflexivity.
Defined.

Lemma to_sql_other (env : Env) (name other : string) (fr : DataFrame)
    (mode : if_exists_mode) (d : Db) :
  other ≠ name → tables (to_sql env name fr mode d).2 !! other = tables d !! other.
Proof.
  intros Hne. unfold to_sql. destruct (db_fault env (ops d)); [reflexivity|].
  destruct mode; [by apply lookup_insert_ne|].
  destruct (tables d !! name) as [t|]; [|by apply lookup_insert_ne].
  destruct (subset_of (columns fr) (tcolumns t)); [by apply lookup_insert_ne | reflexivity].
Qed.

Lemma write_chunks_other (env : Env) (name other : string) (m : if_exists_mode)
    (df : DataFrame) (starts : list nat) (d : Db) :
  other ≠ name →
  tables (write_chunks env name m df starts d).2 !! other = tables d !! other.
Proof.
  intros Hne. revert d. induction starts as [|i starts IH]; intros d; [reflexivity|].
  rewrite write_chunks_cons.
  pose proof (to_sql_other env name other (iloc df i (i + chunk_size))
                (if Nat.ltb 0 i then Append else m) d Hne) as Hstep.
  destruct (to_sql env name _ _ d) as [[[]|e] d1]; simpl in Hstep.
  - by rewrite IH.
  - exact Hstep.
Qed.

(** X13. Whatever fails, [store_data] reads and writes one table only:
    every other table of the database is as it was. *)
Theorem store_data_other_tables (env : Env) (data : list pydict) (api : ApiConfig)
    (d : Db) (other : string) :
  other ≠ table_name api →
  tables (store_data env data api d).2 !! other = tables d !! other.
Proof.
  intros Hne. destruct data as [|r data]; [reflexivity|].
  unfold store_data, table_exists.
  destruct (db_fault env (ops d)); [reflexivity|].
  match goal with
  | |- context [write_chunks ?e ?n ?m ?df ?st ?d0] =>
      pose proof (write_chunks_other e n other m df st d0 Hne) as Hw;
      destruct (write_chunks e n m df st d0) as [[[]|e'] d2]
  end; exact Hw.
Qed.

Lemma store_data_other_tables_witness :
  tables (store_data env_second_chunk_fails (replicate 1500 (rec_id 7)) api_posts
            db_with_other).2 !! "countries"
  = tables db_with_other !! "countries".
Proof.
  apply (store_data_other_tables env_second_chunk_fails (replicate 1500 (rec_id 7))
           api_posts db_with_other "countries").
  discriminate.
Defined.

(** ** Mixed columns in the store *)

Lemma dict_get_key (k : string) (r : pydict) (v : json) : dict_get k r = Some v → k ∈ r.*1.
Proof.
  intros H. destruct (decide (k ∈ r.*1)) as [|Hn]; [done|].
  apply dict_get_None in Hn. congruence.
Qed.
Lemma cell_of_composite (r : pydict) (k : string) :
  cell_is_composite (cell_of r k)
  = match dict_get k r with Some v => is_composite v | None => false end.
Proof. unfold cell_of. by destruct (dict_get k r). Qed.

Lemma column_flag (data : list pydict) (cols : list string) (j : nat) (k : string) :
  cols !! j = Some k →
  existsb cell_is_composite
    ((fun row : list cell => default NaN (row !! j))
       <$> ((fun r => cell_of r <$> cols) <$> data))
  = column_complex data k.
Proof.
  intros Hj. unfold column_complex.
  induction data as [|r data IH]; [reflexivity|].
  rewrite !fmap_cons. cbn [existsb]. rewrite IH. f_equal.
  rewrite list_lookup_fmap, Hj. simpl. apply cell_of_composite.
Qed.

Lemma column_complex_key (data : list pydict) (k : string) :
  column_complex data k = true → k ∈ union_keys data.
Proof.
  unfold column_complex. rewrite existsb_exists. intros (r & Hr & Hc).
  apply list_elem_of_In in Hr.
  destruct (dict_get k r) as [v|] eqn:E; [|discriminate].
  apply (union_keys_elem data r); [exact Hr | by apply (dict_get_key k r v)].
Qed.

(** The stored cell of record [i] under column [k]. *)
Lemma stored_cell (data : list pydict) (i : nat) (r : pydict) (k : string) :
  data !! i = Some r → k ∈ union_keys data →
  ∃ row, sql_rows (frame_of data) !! i = Some row
         ∧ row_get k row
           = Some (if column_complex data k then dump_cell (cell_of r k) else cell_of r k).
Proof.
  intros Hi Hin.
  apply list_elem_of_lookup_1 in Hin as [j Hj].
  pose proof (lookup_lt_Some _ _ _ Hj) as Hjlt.
  set (cols := union_keys data) in *.
  set (df := DataFrame_of data).
  assert (rows df !! i = Some (cell_of r <$> cols)) as Hrow.
  { unfold df, DataFrame_of. cbn [rows]. by rewrite list_lookup_fmap, Hi. }
  assert ((cell_of r <$> cols) !! j = Some (cell_of r k)) as Hcell.
  { by rewrite list_lookup_fmap, Hj. }
  eexists. split.
  - unfold sql_rows, frame_of, convert_complex. cbn [rows columns].
    fold df. rewrite !list_lookup_fmap, Hrow. reflexivity.
  - cbn [columns]. change (columns df) with cols.
    rewrite (row_get_zip cols _ j k); [| apply union_keys_NoDup | exact Hj |].
    2:{ by rewrite !length_fmap, length_imap, length_fmap. }
    rewrite list_lookup_fmap, list_lookup_imap, Hcell. simpl.
    rewrite list_lookup_fmap, lookup_seq_lt by exact Hjlt. simpl.
    unfold column_cells, df, DataFrame_of. cbn [rows]. fold cols.
    by rewrite (column_flag data cols j k Hj).
Qed.

Lemma escape_char_length (c : ascii) : (1 ≤ String.length (Json.escape_char c))%nat.
Proof. unfold Json.escape_char. repeat case_match; simpl; lia. Qed.

Lemma escape_string_length (s : string) :
  (String.length s ≤ String.length (Json.escape_string s))%nat.
Proof.
  induction s as [|c s IH]; [reflexivity|].
  change (Json.escape_string (String c s))
    with (Json.escape_char c +:+ Json.escape_string s).
  rewrite length_append. pose proof (escape_char_length c). simpl. lia.
Qed.

Lemma dumps_str_longer (s : string) :
  (String.length s < String.length (Json.dumps_str s))%nat.
Proof.
  unfold Json.dumps_str. simpl. rewrite length_append. simpl.
  pose proof (escape_string_length s). lia.
Qed.

(** The text of a scalar is not touched by the consumer, and is not the
    scalar. *)
Lemma decode_plain_text (v : json) :
  is_plain v = true →
  decode_value (JStr (Json.dumps v)) = JStr (Json.dumps v) ∧ JStr (Json.dumps v) ≠ v.
Proof.
  destruct v as [|b|n|s| |]; try discriminate; intros _.
  - by destruct b.
  - split; [|discriminate]. unfold decode_value.
    assert (starts_with "{" (Json.dumps (JInt n)) = false
            ∧ starts_with "[" (Json.dumps (JInt n)) = false) as [-> ->]; [|reflexivity].
    pose proof (value_head_dumps (JInt n) EmptyString) as H. rewrite append_nil_r in H.
    unfold Json.dumps, Json.dumps_int in *.
    destruct (Z.to_int n) as [u|u] eqn:E; [|by split].
    destruct (to_int_pos n u E) as (Hne & _). by destruct u.
  - split; [reflexivity|]. intros [= H].
    pose proof (dumps_str_longer s) as Hl. simpl in H. rewrite H in Hl. lia.
Qed.

Lemma stored_row (env : Env) (data : list pydict) (api : ApiConfig) (d d' : Db)
    (i : nat) (r : pydict) (k : string) :
  store_data env data api d = (true, d') →
  data !! i = Some r → k ∈ union_keys data →
  ∃ t row, tables d' !! table_name api = Some t
           ∧ trows t !! i = Some row
           ∧ row_get k row
             = Some (if column_complex data k then dump_cell (cell_of r k) else cell_of r k).
Proof.
  intros Hs Hi Hin.
  destruct (stored_cell data i r k Hi Hin) as (row & Hrow & Hcell).
  eexists _, row. split; [exact (store_data_true env data api d d' Hs)|].
  split; [exact Hrow | exact Hcell].
Qed.

(** X14. In a column where some record holds a list or a dict, the
    numbers, booleans and strings of the other records are stored as
    their JSON text as well, and the consumer returns that text: such a
    value does not come back as the value the source sent. *)
Theorem scalar_in_composite_column (env : Env) (data : list pydict) (api : ApiConfig)
    (d d' : Db) (i : nat) (r : pydict) (k : string) (v : json) :
  store_data env data api d = (true, d') →
  data !! i = Some r →
  dict_get k r = Some v →
  is_plain v = true →
  column_complex data k = true →
  ∃ t row,
    tables d' !! table_name api = Some t
    ∧ trows t !! i = Some row
    ∧ row_get k row = Some (Val (JStr (Json.dumps v)))
    ∧ decode_value (JStr (Json.dumps v)) = JStr (Json.dumps v)
    ∧ JStr (Json.dumps v) ≠ v.
Proof.
  intros Hs Hi Hk Hv Hc.
  destruct (stored_row env data api d d' i r k Hs Hi (column_complex_key data k Hc))
    as (t & row & Ht & Hrow & Hcell).
  rewrite Hc in Hcell. unfold cell_of in Hcell. rewrite Hk in Hcell.
  exists t, row. split; [exact Ht|]. split; [exact Hrow|]. split.
  - rewrite Hcell. by destruct v.
  - by apply decode_plain_text.
Qed.

Lemma scalar_in_composite_column_witness :
  ∃ t row,
    tables (store_data env_down [rec_tagged; rec_untagged] api_posts empty_db).2
      !! table_name api_posts = Some t
    ∧ trows t !! 1%nat = Some row
    ∧ row_get "tags" row = Some (Val (JStr (Json.dumps (JStr "none"))))
    ∧ decode_value (JStr (Json.dumps (JStr "none"))) = JStr (Json.dumps (JStr "none"))
    ∧ JStr (Json.dumps (JStr "none")) ≠ JStr "none".
Proof.
  apply (scalar_in_composite_column env_down [rec_tagged; rec_untagged] api_posts empty_db
           _ 1 rec_untagged "tags" (JStr "none")); reflexivity.
Defined.

(** X15. In a column where some record holds a list or a dict, a record
    without the key is stored with the text [NaN], which the consumer
    returns as a string, while a record that holds [None] there is stored
    with NULL. *)
Theorem absent_field_in_composite_column (env : Env) (data : list pydict) (api : ApiConfig)
    (d d' : Db) (i : nat) (r : pydict) (k : string) :
  store_data env data api d = (true, d') →
  data !! i = Some r →
  column_complex data k = true →
  ∃ t row,
    tables d' !! table_name api = Some t
    ∧ trows t !! i = Some row
    ∧ (dict_get k r = None →
       row_get k row = Some (Val (JStr "NaN")) ∧ decode_value (JStr "NaN") = JStr "NaN")
    ∧ (dict_get k r = Some JNull → row_get k row = Some (Val JNull)).
Proof.
  intros Hs Hi Hc.
  destruct (stored_row env data api d d' i r k Hs Hi (column_complex_key data k Hc))
    as (t & row & Ht & Hrow & Hcell).
  rewrite Hc in Hcell. unfold cell_of in Hcell.
  exists t, row. split; [exact Ht|]. split; [exact Hrow|]. split.
  - intros Hk. rewrite Hk in Hcell. by split.
  - intros Hk. by rewrite Hk in Hcell.
Qed.

Lemma absent_field_in_composite_column_witness :
  ∃ t row0 row1,
    tables (store_data env_down [rec_bare; rec_null_tags; rec_tagged] api_posts empty_db).2
      !! table_name api_posts = Some t
    ∧ trows t !! 0%nat = Some row0
    ∧ row_get "tags" row0 = Some (Val (JStr "NaN"))
    ∧ trows t !! 1%nat = Some row1
    ∧ row_get "tags" row1 = Some (Val JNull).
Proof.
  destruct (absent_field_in_composite_column env_down [rec_bare; rec_null_tags; rec_tagged]
              api_posts empty_db _ 0 rec_bare "tags" eq_refl eq_refl eq_refl)
    as (t & row0 & Ht & H0 & Habsent & _).
  destruct (absent_field_in_composite_column env_down [rec_bare; rec_null_tags; rec_tagged]
              api_posts empty_db _ 1 rec_null_tags "tags" eq_refl eq_refl eq_refl)
    as (t' & row1 & Ht' & H1 & _ & Hnull).
  rewrite Ht in Ht'. injection Ht' as <-.
  exists t, row0, row1. split; [exact Ht|]. split; [exact H0|].
  split; [exact (proj1 (Habsent eq_refl))|]. split; [exact H1 | exact (Hnull eq_refl)].
Defined.



(** ** More on the consumer *)





(** ** The scheduler and the [/process] endpoint *)

Lemma construct_all_cons (a : ApiArgs) (rest : list ApiArgs) :
  construct_all (a :: rest)
  = match ApiConfig_init a with
    | Ok api => match construct_all rest with
                | Ok apis => Ok (api :: apis)
                | Raise e => Raise e
                end
    | Raise e => Raise e
    end.
Proof. reflexivity. Qed.

(** One entry that the constructor rejects makes the comprehension
    raise a [ValueError]. *)
Lemma construct_all_Raise (configs : list ApiArgs) (a : ApiArgs) :
  a ∈ configs → ¬ valid_args a → ∃ msg, construct_all configs = Raise (ValueError msg).
Proof.
  intros Hin Ha. induction configs as [|a' configs IH]; [set_solver|].
  rewrite construct_all_cons.
  destruct (ApiConfig_init a') as [api'|e] eqn:E.
  - apply elem_of_cons in Hin as [->|Hin].
    + destruct Ha. by apply (constructed_valid_args a' api').
    + destruct (IH Hin) as [msg ->]. eauto.
  - destruct (ApiConfig_init_ValueError a' e E) as [msg ->]. eauto.
Qed.

Lemma construct_all_Ok (configs : list ApiArgs) :
  Forall valid_args configs →
  ∃ apis, construct_all configs = Ok apis
          ∧ Forall2 (fun a api => ApiConfig_init a = Ok api) configs apis.
Proof.
  induction 1 as [|a configs Ha _ (apis & IH & Hall)].
  - exists []. split; [reflexivity | constructor].
  - apply valid_args_constructed in Ha as [api Hapi].
    exists (api :: apis). rewrite construct_all_cons, Hapi, IH.
    split; [reflexivity | by constructor].
Qed.

(** X18. One entry of the configuration file that the constructor
    rejects discards the whole file: [load_api_configs] returns no source
    at all, the valid entries included, and the job ends without a
    request or a write. *)
Theorem invalid_entry_discards_all (env : Env) (configs : list ApiArgs) (a : ApiArgs)
    (w : World) :
  a ∈ configs → ¬ valid_args a →
  load_api_configs (Some (Ok configs)) = []
  ∧ run_data_processing_job env (Some (Ok configs)) w = w.
Proof.
  intros Hin Ha.
  assert (load_api_configs (Some (Ok configs)) = []) as E.
  { unfold load_api_configs. simpl.
    by destruct (construct_all_Raise configs a Hin Ha) as [msg ->]. }
  split; [exact E|]. unfold run_data_processing_job. by rewrite E.
Qed.

Lemma invalid_entry_discards_all_witness :
  load_api_configs (Some (Ok [args_posts; args_bad_kind; args_breweries])) = []
  ∧ run_data_processing_job env_two_records
      (Some (Ok [args_posts; args_bad_kind; args_breweries])) world0 = world0.
Proof.
  apply (invalid_entry_discards_all env_two_records [args_posts; args_bad_kind; args_breweries]
           args_bad_kind world0).
  - set_solver.
  - intros [_ [H | [H _]]]; discriminate H.
Defined.

(** X19. When every entry of the configuration file is valid,
    [load_api_configs] returns one source per entry, each constructed
    from its entry, in the order of the file; the job is then, for a file
    with at least one entry, one run of [process_apis] over these
    sources, whose exception, if any, is dropped. *)
Theorem valid_entries_all_loaded (env : Env) (configs : list ApiArgs) (w : World) :
  Forall valid_args configs →
  Forall2 (fun a api => ApiConfig_init a = Ok api) configs
          (load_api_configs (Some (Ok configs)))
  ∧ (configs ≠ [] →
     run_data_processing_job env (Some (Ok configs)) w
     = (process_apis env (load_api_configs (Some (Ok configs))) w).2).
Proof.
  intros Hv. destruct (construct_all_Ok configs Hv) as (apis & Hc & Hall).
  assert (load_api_configs (Some (Ok configs)) = apis) as E.
  { unfold load_api_configs. simpl. by rewrite Hc. }
  rewrite E. split; [exact Hall|].
  intros Hne. unfold run_data_processing_job. rewrite E.
  destruct Hall; [done | reflexivity].
Qed.

Lemma valid_entries_all_loaded_witness :
  Forall2 (fun a api => ApiConfig_init a = Ok api) [args_posts; args_breweries]
          (load_api_configs (Some (Ok [args_posts; args_breweries])))
  ∧ run_data_processing_job env_two_records (Some (Ok [args_posts; args_breweries])) world0
    = (process_apis env_two_records
         (load_api_configs (Some (Ok [args_posts; args_breweries]))) world0).2.
Proof.
  destruct (valid_entries_all_loaded env_two_records [args_posts; args_breweries] world0)
    as [Hall Hjob].
  - repeat constructor; discriminate.
  - split; [exact Hall | apply Hjob; discriminate].
Defined.



(** ** One source, end to end *)




(** X22. The count a unit of work returns is the number of records it
    stored: a positive count is the number of records of the payload and
    the number of rows of the table of the source after the unit. *)
Theorem positive_count_rows_stored (env : Env) (api : ApiConfig) (raw : json) (d d' : Db)
    (n : nat) :
  process_data_in_thread_pool env api raw d = (n, d') →
  (0 < n)%nat →
  n = length (transform_data env raw api)
  ∧ ∃ t, tables d' !! table_name api = Some t ∧ length (trows t) = n.
Proof.
  unfold process_data_in_thread_pool. intros Hrun Hn.
  destruct (transform_data env raw api) as [|r recs] eqn:E.
  { injection Hrun as <- _. lia. }
  destruct (store_data env (r :: recs) api d) as [[] d1] eqn:Hs.
  - injection Hrun as <- <-. split; [reflexivity|].
    eexists. split; [exact (store_data_true env _ api d d1 Hs)|].
    cbn [trows]. unfold sql_rows. by rewrite length_fmap, frame_of_rows_length.
  - injection Hrun as <- _. lia.
Qed.

Lemma positive_count_rows_stored_witness :
  2%nat = length (transform_data env_down (JList [JDict (rec_id 1); JDict (rec_id 2)]) api_posts)
  ∧ ∃ t, tables (process_data_in_thread_pool env_down api_posts
                   (JList [JDict (rec_id 1); JDict (rec_id 2)]) db_with_posts).2
           !! table_name api_posts = Some t
         ∧ length (trows t) = 2%nat.
Proof.
  apply (positive_count_rows_stored env_down api_posts
           (JList [JDict (rec_id 1); JDict (rec_id 2)]) db_with_posts _ 2);
    [reflexivity | lia].
Defined.

(** ** Sanity checks of the primitives *)

Example default_label_of_url :
  default_label "https://api.openbrewerydb.org/v1/breweries" = "api.openbrewerydb.org".
Proof. reflexivity. Qed.

Example default_table_name_of_label :
  default_table_name "Api.Open-Brewerydb.org" = "api_open_brewerydb_org".
Proof. reflexivity. Qed.

Example loads_skips_blanks :
  Json.loads " [1 , -20,{ } , [ ] , true,null ] "
  = Ok (JList [JInt 1; JInt (-20); JDict []; JList []; JBool true; JNull]).
Proof. reflexivity. Qed.

Example loads_rejects_leading_zero : ∃ msg, Json.loads "[012]" = Raise (ValueError msg).
Proof. eexists. reflexivity. Qed.

Example nested_object_is_flattened :
  transform_data env_down
    (JList [JDict [("id", JInt 1); ("owner", JDict [("name", JStr "n"); ("tags", JList [])])]])
    src_down
  = [[("id", JInt 1); ("owner.name", JStr "n"); ("owner.tags", JList [])]].
Proof. reflexivity. Qed.
